(** * Ticket validator: the [checkTicketValidity] handler of [src/App.tsx]

    The component keeps six React state slots and one asynchronous handler,
    [checkTicketValidity], which normalises the wallet address, queries up to
    three view methods of a fixed contract and writes the result into the
    slots.  The handler is embedded as a computation in a small monad that
    threads the slots, the log of contract calls and the console, and that
    carries JavaScript exceptions, so that [try]/[catch]/[finally] are
    combinators with the semantics of the language.

    What lies outside the repository ([ethers.getAddress], the provider and
    contract constructors, the three contract methods and the wall clock) is
    an environment [Env] over which every statement quantifies. *)

From Stdlib Require Import String Ascii ZArith NArith Bool Lia List.
Import ListNotations.

Set Implicit Arguments.

(* ================================================================== *)
(** ** JavaScript strings and thrown values *)
(* ================================================================== *)

Module Js.

(** A JavaScript string is a sequence of UTF-16 code units. *)
Definition str := list N.

(** The code units of an ASCII literal of the source. *)
Definition lit (s : string) : str :=
  map N_of_ascii (list_ascii_of_string s).

(** ECMAScript [WhiteSpace] and [LineTerminator] code points, the ones
    [String.prototype.trim] strips.  All lie in the basic plane, so each is
    one code unit. *)
Definition isWhiteSpace (c : N) : bool :=
  ((9 <=? c) && (c <=? 13)          (* TAB LF VT FF CR *)
   || (c =? 32)                     (* SPACE *)
   || (c =? 160)                    (* NO-BREAK SPACE *)
   || (c =? 5760)                   (* U+1680 *)
   || ((8192 <=? c) && (c <=? 8202))(* U+2000 .. U+200A *)
   || (c =? 8232) || (c =? 8233)    (* U+2028 U+2029 *)
   || (c =? 8239)                   (* U+202F *)
   || (c =? 8287)                   (* U+205F *)
   || (c =? 12288)                  (* U+3000 *)
   || (c =? 65279))%N.              (* U+FEFF *)

Fixpoint trimStart (s : str) : str :=
  match s with
  | c :: t => if isWhiteSpace c then trimStart t else s
  | [] => []
  end.

Definition trimEnd (s : str) : str := rev (trimStart (rev s)).

(** [s.trim()] *)
Definition trim (s : str) : str := trimEnd (trimStart s).

(** Truthiness of a string: only the empty string is falsy. *)
Definition truthy (s : str) : bool :=
  match s with [] => false | _ :: _ => true end.

Fixpoint startsWith (needle hay : str) : bool :=
  match needle, hay with
  | [], _ => true
  | _ :: _, [] => false
  | a :: n', b :: h' => (a =? b)%N && startsWith n' h'
  end.

(** [hay.includes(needle)] *)
Fixpoint includes (needle hay : str) : bool :=
  startsWith needle hay
  || match hay with
     | [] => false
     | _ :: h' => includes needle h'
     end.

(** A caught value.  The library throws, and rejects its promises with,
    error objects; the handlers read nothing of one but [.message], which is
    a string or is missing ([None], JavaScript's [undefined]). *)
Record JsError : Type := mkError { message : option str }.

(** [x.message] used as a condition, and [x.message || fallback]: a missing
    and an empty message are both falsy. *)
Definition truthyMessage (err : JsError) : option str :=
  match message err with
  | Some m => if truthy m then Some m else None
  | None => None
  end.

End Js.
Import Js.

(* ================================================================== *)
(** ** State of the component and its environment *)
(* ================================================================== *)

(** [interface NFTDetails] *)
Record NFTDetails : Type := mkNFTDetails {
  contractName : str;
  eventName : str;
  keyExpiration : option str
}.

(** The six [useState] slots of [App]. *)
Record Store : Type := mkStore {
  walletAddress : str;
  isValidTicket : option bool;
  isLoading : bool;
  nftDetails : option NFTDetails;
  showContractInfo : bool;
  errorInfo : option str
}.

(** The slots as [useState] initialises them. *)
Definition initialStore : Store :=
  mkStore [] None false None false None.

(** The three view methods of the ABI. *)
Inductive Method : Type :=
| GetHasValidKey
| BalanceOf
| KeyExpirationTimestampFor.

(** One contract call: the method and the address passed to it. *)
Record Call : Type := mkCall { method : Method; arg : str }.

(** What the handler touches: the slots, the contract calls issued so far
    (oldest first) and the lines written by [console.error]. *)
Record World : Type := mkWorld {
  store : Store;
  calls : list Call;
  console : list (str * JsError)
}.

Definition initialWorld : World := mkWorld initialStore [] [].

(** The collaborators outside the repository.  A result [inl err] is a thrown
    (or rejected) [err]; [inr v] is a normal return of [v]. *)
Record Env : Type := mkEnv {
  (** [ethers.getAddress] *)
  getAddress : str -> JsError + str;
  (** [new ethers.JsonRpcProvider(..)] then [new ethers.Contract(..)];
      [Some err] when one of the constructors throws [err] *)
  newContract : option JsError;
  (** [contract.getHasValidKey] *)
  getHasValidKey : str -> JsError + bool;
  (** [contract.balanceOf], a [uint256] decoded to a bigint *)
  balanceOf : str -> JsError + Z;
  (** [contract.keyExpirationTimestampFor], likewise *)
  keyExpirationTimestampFor : str -> JsError + Z;
  (** [Date.now()], in milliseconds *)
  dateNow : Z
}.

(* ================================================================== *)
(** ** The monad of handlers *)
(* ================================================================== *)

(** A computation runs from a world to a completion (normal with a value, or
    abrupt with a thrown value) and the world it leaves.  Writes made before a
    throw stay. *)
Definition M (A : Type) : Type := World -> (JsError + A) * World.

Definition ret {A} (a : A) : M A := fun w => (inr a, w).

Definition bind {A B} (m : M A) (k : A -> M B) : M B :=
  fun w =>
    match m w with
    | (inr a, w') => k a w'
    | (inl err, w') => (inl err, w')
    end.

Declare Scope handler_scope.
Delimit Scope handler_scope with handler.
Notation "x <- m ;; k" := (bind m (fun x => k))
  (at level 61, m at next level, right associativity) : handler_scope.
Notation "m ;; k" := (bind m (fun _ => k))
  (at level 61, right associativity) : handler_scope.
Local Open Scope handler_scope.

(** [try { body } catch (x) { handler x }] *)
Definition tryCatch {A} (body : M A) (handler : JsError -> M A) : M A :=
  fun w =>
    match body w with
    | (inl err, w') => handler err w'
    | (inr a, w') => (inr a, w')
    end.

(** [try { body } finally { fin }]: [fin] runs on both completions, and an
    exception of [fin] replaces the completion of [body]. *)
Definition tryFinally {A} (body : M A) (fin : M unit) : M A :=
  fun w =>
    match body w with
    | (r, w') =>
        match fin w' with
        | (inl err, w'') => (inl err, w'')
        | (inr _, w'') => (r, w'')
        end
    end.

(** *** State setters *)

Definition modifyStore (f : Store -> Store) : M unit :=
  fun w => (inr tt, mkWorld (f (store w)) (calls w) (console w)).

Definition setWalletAddress (v : str) : M unit :=
  modifyStore (fun s => mkStore v (isValidTicket s) (isLoading s)
                          (nftDetails s) (showContractInfo s) (errorInfo s)).

Definition setIsValidTicket (v : option bool) : M unit :=
  modifyStore (fun s => mkStore (walletAddress s) v (isLoading s)
                          (nftDetails s) (showContractInfo s) (errorInfo s)).

Definition setIsLoading (v : bool) : M unit :=
  modifyStore (fun s => mkStore (walletAddress s) (isValidTicket s) v
                          (nftDetails s) (showContractInfo s) (errorInfo s)).

Definition setNftDetails (v : option NFTDetails) : M unit :=
  modifyStore (fun s => mkStore (walletAddress s) (isValidTicket s)
                          (isLoading s) v (showContractInfo s) (errorInfo s)).

Definition setShowContractInfo (v : bool) : M unit :=
  modifyStore (fun s => mkStore (walletAddress s) (isValidTicket s)
                          (isLoading s) (nftDetails s) v (errorInfo s)).

Definition setErrorInfo (v : option str) : M unit :=
  modifyStore (fun s => mkStore (walletAddress s) (isValidTicket s)
                          (isLoading s) (nftDetails s) (showContractInfo s) v).

Definition readStore {A} (f : Store -> A) : M A :=
  fun w => (inr (f (store w)), w).

(** *** Effects on the outside *)

(** [console.error(label, err)] *)
Definition console_error (label : str) (err : JsError) : M unit :=
  fun w => (inr tt, mkWorld (store w) (calls w) (console w ++ [(label, err)])).

(** [ethers.getAddress(s)]: local, no network. *)
Definition ethers_getAddress (e : Env) (s : str) : M str :=
  fun w => (getAddress e s, w).

(** The two constructors of lines 72-75. *)
Definition new_Contract (e : Env) : M unit :=
  fun w => (match newContract e with
            | Some err => inl err
            | None => inr tt
            end, w).

(** [await contract.m(a)]: the call is issued, then it resolves or rejects. *)
Definition await {A} (m : Method) (a : str) (response : JsError + A) : M A :=
  fun w => (response, mkWorld (store w) (calls w ++ [mkCall m a]) (console w)).

(** [Math.floor(Date.now() / 1000)].  [Date.now()] is an integer below 2^53
    in absolute value, for which the floating-point quotient floors to the
    integer quotient. *)
Definition unixNow (e : Env) : M Z :=
  fun w => (inr (dateNow e / 1000)%Z, w).

(* ================================================================== *)
(** ** The handlers of [App] *)
(* ================================================================== *)

Definition staticDetails : NFTDetails :=
  mkNFTDetails (lit "DappCon25 Ticket") (lit "DappCon 2025")
               (Some (lit "16th-18th June, 2025")).

(** Lines 88-100: the expiration check and its handler. *)
Definition checkExpiration (e : Env) (normalizedAddress : str) : M unit :=
  tryCatch
    (expiration <- await KeyExpirationTimestampFor normalizedAddress
                     (keyExpirationTimestampFor e normalizedAddress) ;;
     now <- unixNow e ;;
     if (expiration <? now)%Z
     then setErrorInfo (Some (lit "Your key has expired"))
     else setErrorInfo (Some (lit "You own a key but it appears to be invalid")))
    (fun expError =>
       console_error (lit "Error checking expiration:") expError ;;
       setErrorInfo (Some (lit "Error checking key expiration"))).

(** Lines 84-107: the balance check and its handler. *)
Definition checkBalance (e : Env) (normalizedAddress : str) : M unit :=
  tryCatch
    (balance <- await BalanceOf normalizedAddress
                  (balanceOf e normalizedAddress) ;;
     if (0 <? balance)%Z
     then checkExpiration e normalizedAddress
     else setErrorInfo (Some (lit "No ticket found for this address")))
    (fun balanceError =>
       console_error (lit "Error checking balance:") balanceError ;;
       setErrorInfo (Some (lit "Error checking key ownership"))).

(** Lines 118-132: the handler of a failed [getHasValidKey]. *)
Definition onValidKeyError (validKeyError : JsError) : M unit :=
  console_error (lit "Error in getHasValidKey:") validKeyError ;;
  match truthyMessage validKeyError with
  | Some m =>
      if includes (lit "call revert exception") m
      then setErrorInfo
             (Some (lit "Contract call failed - the contract might not support this method"))
      else if includes (lit "network") m
      then setErrorInfo (Some (lit "Network connection error - please try again"))
      else setErrorInfo (Some (lit "Error: " ++ m))
  | None => ret tt
  end ;;
  setIsValidTicket (Some false).

(** Lines 78-132: the primary check. *)
Definition checkValidKey (e : Env) (normalizedAddress : str) : M unit :=
  tryCatch
    (hasValidKey <- await GetHasValidKey normalizedAddress
                      (getHasValidKey e normalizedAddress) ;;
     setIsValidTicket (Some hasValidKey) ;;
     (if negb hasValidKey
      then checkBalance e normalizedAddress
      else ret tt) ;;
     if hasValidKey
     then setNftDetails (Some staticDetails)
     else ret tt)
    onValidKeyError.

(** Lines 133-136: the handler of the outer [try]. *)
Definition onGeneralError (error : JsError) : M unit :=
  console_error (lit "General validation error:") error ;;
  setIsValidTicket (Some false) ;;
  setErrorInfo
    (Some (lit "Error: " ++ match truthyMessage error with
                            | Some m => m
                            | None => lit "Unknown error"
                            end)).

(** Lines 54-140.  The [return] of line 67 is the [None] branch below. *)
Definition checkTicketValidity (e : Env) : M unit :=
  input <- readStore walletAddress ;;
  if negb (truthy (trim input)) then ret tt else
  setIsLoading true ;;
  setIsValidTicket None ;;
  setErrorInfo None ;;
  normalized <-
    tryCatch
      (a <- ethers_getAddress e input ;; ret (Some a))
      (fun _ =>
         setErrorInfo (Some (lit "Invalid wallet address format")) ;;
         setIsLoading false ;;
         ret None) ;;
  match normalized with
  | None => ret tt
  | Some normalizedAddress =>
      tryFinally
        (tryCatch
           (new_Contract e ;;
            checkValidKey e normalizedAddress)
           onGeneralError)
        (setIsLoading false)
  end.

(** [toggleContractInfo] *)
Definition toggleContractInfo : M unit :=
  shown <- readStore showContractInfo ;;
  setShowContractInfo (negb shown).

(** [resetForm] *)
Definition resetForm : M unit :=
  setWalletAddress [] ;;
  setIsValidTicket None ;;
  setErrorInfo None ;;
  setNftDetails None.

(** The UI events of the page and their handlers: typing into the input,
    the validate button (or Enter), the reset button and the contract link.
    A validation carries the environment it runs in. *)
Inductive UiEvent : Type :=
| InputChanged (v : str)
| ValidateRequested (e : Env)
| ResetClicked
| ContractInfoToggled.

Definition handle (ev : UiEvent) : M unit :=
  match ev with
  | InputChanged v => setWalletAddress v
  | ValidateRequested e => checkTicketValidity e
  | ResetClicked => resetForm
  | ContractInfoToggled => toggleContractInfo
  end.

(** A session: the handlers run to completion one after the other. *)
Fixpoint runSession (evs : list UiEvent) : M unit :=
  match evs with
  | [] => ret tt
  | ev :: rest => handle ev ;; runSession rest
  end.

(* ================================================================== *)
(** ** What the page shows *)
(* ================================================================== *)

(** The conditional blocks of the JSX (lines 246-305 and 332-373). *)
Record View : Type := mkView {
  (** the red block with [errorInfo] *)
  errorPanel : option str;
  (** the green block; inside it, the details when present *)
  successPanel : option (option NFTDetails);
  (** the red block without a diagnostic *)
  noTicketPanel : bool;
  (** the overlay; inside it, the details when present *)
  contractOverlay : option (option NFTDetails)
}.

Definition hasDiagnostic (s : Store) : bool :=
  match errorInfo s with
  | Some m => truthy m
  | None => false
  end.

Definition render (s : Store) : View :=
  mkView
    (if hasDiagnostic s then errorInfo s else None)
    (match isValidTicket s with
     | Some true => if hasDiagnostic s then None else Some (nftDetails s)
     | _ => None
     end)
    (match isValidTicket s with
     | Some false => negb (hasDiagnostic s)
     | _ => false
     end)
    (if showContractInfo s then Some (nftDetails s) else None).

(** The three outcomes the slot [isValidTicket : boolean | null] encodes. *)
Inductive Verdict : Type := Valid | Invalid | Unknown.

Definition verdict (s : Store) : Verdict :=
  match isValidTicket s with
  | Some true => Valid
  | Some false => Invalid
  | None => Unknown
  end.

(** The outcome a validation leaves in the slots: verdict, diagnostic and
    ticket details. *)
Record ValidationOutcome : Type := mkOutcome {
  outcome : Verdict;
  diagnostic : option str;
  details : option NFTDetails
}.

Definition validationOutcome (s : Store) : ValidationOutcome :=
  mkOutcome (verdict s) (errorInfo s) (nftDetails s).

(** The calls a validation adds to the log. *)
Definition fullSequence (a : str) : list Call :=
  [mkCall GetHasValidKey a; mkCall BalanceOf a;
   mkCall KeyExpirationTimestampFor a].

(** The input is neither empty nor made of whitespace only. *)
Definition nonBlank (s : str) : bool := truthy (trim s).

(* ================================================================== *)
(** ** The decision table of the handler *)
(* ================================================================== *)

(** The two tests the handler of a failed [getHasValidKey] runs on the
    message, in this order (lines 121 and 125): whether it takes the message
    for a reverted contract call, and whether it takes it for a network
    failure. *)
Definition indicatesRevert (m : str) : bool :=
  includes (lit "call revert exception") m.


(** The diagnostic of a failed [getHasValidKey]. *)
Definition classify (err : JsError) : option str :=
  match truthyMessage err with
  | Some m =>
      Some (if includes (lit "call revert exception") m
            then lit "Contract call failed - the contract might not support this method"
            else if includes (lit "network") m
            then lit "Network connection error - please try again"
            else lit "Error: " ++ m)
  | None => None
  end.

(** The diagnostic of the secondary checks, reached when [getHasValidKey]
    returned [false]. *)
Definition secondaryDiagnostic (e : Env) (a : str) : str :=
  match balanceOf e a with
  | inl _ => lit "Error checking key ownership"
  | inr balance =>
      if (0 <? balance)%Z then
        match keyExpirationTimestampFor e a with
        | inl _ => lit "Error checking key expiration"
        | inr expiration =>
            if (expiration <? dateNow e / 1000)%Z
            then lit "Your key has expired"
            else lit "You own a key but it appears to be invalid"
        end
      else lit "No ticket found for this address"
  end.

(** What a validation of a non-blank input writes: the slots
    [isValidTicket] and [errorInfo], and whether [nftDetails] is written. *)
Record Decision : Type := mkDecision {
  ticketSlot : option bool;
  errorSlot : option str;
  detailsWritten : bool
}.

Definition decide (e : Env) (input : str) : Decision :=
  match getAddress e input with
  | inl _ =>
      mkDecision None (Some (lit "Invalid wallet address format")) false
  | inr a =>
      match newContract e with
      | Some err =>
          mkDecision
            (Some false)
            (Some (lit "Error: " ++ match truthyMessage err with
                                    | Some m => m
                                    | None => lit "Unknown error"
                                    end))
            false
      | None =>
          match getHasValidKey e a with
          | inl err => mkDecision (Some false) (classify err) false
          | inr true => mkDecision (Some true) None true
          | inr false =>
              mkDecision (Some false) (Some (secondaryDiagnostic e a)) false
          end
      end
  end.

(** The number of contract calls a validation of a non-blank input makes. *)
Definition callCount (e : Env) (input : str) : nat :=
  match getAddress e input, newContract e with
  | inr a, None =>
      match getHasValidKey e a with
      | inr false =>
          match balanceOf e a with
          | inr balance => if (0 <? balance)%Z then 3 else 2
          | inl _ => 2
          end
      | _ => 1
      end
  | _, _ => 0
  end.

(** The calls themselves. *)
Definition issuedCalls (e : Env) (input : str) : list Call :=
  match getAddress e input with
  | inr a => firstn (callCount e input) (fullSequence a)
  | inl _ => []
  end.

Definition Method_eqb (m1 m2 : Method) : bool :=
  match m1, m2 with
  | GetHasValidKey, GetHasValidKey => true
  | BalanceOf, BalanceOf => true
  | KeyExpirationTimestampFor, KeyExpirationTimestampFor => true
  | _, _ => false
  end.

(** How many calls of a log invoke method [m]. *)
Definition occurrences (m : Method) (cs : list Call) : nat :=
  length (filter (fun c => Method_eqb (method c) m) cs).

(** The completion of a validation and the world it leaves. *)
Definition completion (e : Env) (w : World) : JsError + unit :=
  fst (checkTicketValidity e w).

Definition after (e : Env) (w : World) : World :=
  snd (checkTicketValidity e w).

(** The input of a validation: the address slot as the handler reads it. *)
Definition inputOf (w : World) : str := walletAddress (store w).

(** [input] is a well-formed address whose canonical form is [a]:
    [ethers.getAddress] returns [a] for it.  The library accepts forty
    hexadecimal digits (or an ICAP string) and so no blank string; the first
    conjunct records that. *)
Definition wellFormed (e : Env) (input a : str) : Prop :=
  nonBlank input = true /\ getAddress e input = inr a.

(** [input] is a malformed address: [ethers.getAddress] throws on it. *)
Definition malformed (e : Env) (input : str) : Prop :=
  exists err, getAddress e input = inl err.

(** A failure met by a validation of [input]: an error thrown by a step the
    handler reaches. *)
Inductive Fails (e : Env) (input : str) : JsError -> Prop :=
| fails_address err :
    getAddress e input = inl err -> Fails e input err
| fails_setup a err :
    getAddress e input = inr a -> newContract e = Some err ->
    Fails e input err
| fails_validKey a err :
    getAddress e input = inr a -> newContract e = None ->
    getHasValidKey e a = inl err -> Fails e input err
| fails_balance a err :
    getAddress e input = inr a -> newContract e = None ->
    getHasValidKey e a = inr false -> balanceOf e a = inl err ->
    Fails e input err
| fails_expiration a balance err :
    getAddress e input = inr a -> newContract e = None ->
    getHasValidKey e a = inr false -> balanceOf e a = inr balance ->
    (0 < balance)%Z -> keyExpirationTimestampFor e a = inl err ->
    Fails e input err.

(** Two environments give the same answers: the same normalisation, the
    same constructors and the same contract responses.  The clock is not
    part of it. *)
Definition sameResponses (e1 e2 : Env) : Prop :=
  (forall s, getAddress e1 s = getAddress e2 s)
  /\ newContract e1 = newContract e2
  /\ (forall a, getHasValidKey e1 a = getHasValidKey e2 a)
  /\ (forall a, balanceOf e1 a = balanceOf e2 a)
  /\ (forall a, keyExpirationTimestampFor e1 a = keyExpirationTimestampFor e2 a).

(** The two clocks put the expiration that a validation of [input] reads
    on the same side of the current unix time; two readings within one
    second do.  The expiration is read for the normalised address only, and
    only after [getHasValidKey] returned [false] and [balanceOf] a value
    above 0: when it is not read, nothing is asked of the clocks. *)
Definition clocksAgree (e1 e2 : Env) (input : str) : Prop :=
  forall a balance expiration,
    nonBlank input = true ->
    getAddress e1 input = inr a ->
    newContract e1 = None ->
    getHasValidKey e1 a = inr false ->
    balanceOf e1 a = inr balance ->
    (0 < balance)%Z ->
    keyExpirationTimestampFor e1 a = inr expiration ->
    (expiration <? dateNow e1 / 1000)%Z = (expiration <? dateNow e2 / 1000)%Z.

(** The world a session leaves. *)
Definition afterSession (evs : list UiEvent) (w : World) : World :=
  snd (runSession evs w).

(* ================================================================== *)
(** ** Sample data *)
(* ================================================================== *)

Module Sample.

(** Two addresses as a user types them, and their checksummed forms. *)
Definition typed : str := lit "0x9340184741d938453bf66d77d551cc04ab2f4925".
Definition checksummed : str := lit "0x9340184741D938453bF66D77d551Cc04Ab2F4925".
Definition strangerTyped : str := lit "0x1145d7f127c438286cf499cd9e869253266672e1".
Definition stranger : str := lit "0x1145d7f127c438286cf499CD9e869253266672e1".

Definition invalidAddress : JsError := mkError (Some (lit "invalid address")).

Fixpoint eqb (s t : str) : bool :=
  match s, t with
  | [], [] => true
  | a :: s', b :: t' => (a =? b)%N && eqb s' t'
  | _, _ => false
  end.

(** A normaliser that knows the two addresses. *)
Definition normalise (s : str) : JsError + str :=
  if eqb s typed then inr checksummed
  else if eqb s strangerTyped then inr stranger
  else inl invalidAddress.

(** An environment whose contract answers the same for every address. *)
Definition env (g : JsError + bool) (b k : JsError + Z) (now : Z) : Env :=
  mkEnv normalise None (fun _ => g) (fun _ => b) (fun _ => k) now.

(** The page after [input] was typed into a fresh form. *)
Definition typedInto (input : str) : World :=
  mkWorld (mkStore input None false None false None) [] [].

Definition form : World := typedInto typed.

(** An error without a message, as [Promise.reject({})] gives. *)
Definition silent : JsError := mkError None.

Definition reverted : JsError :=
  mkError (Some (lit "call revert exception (method=getHasValidKey)")).

Definition timeout : JsError := mkError (Some (lit "timeout")).

(** 2025-06-16T00:00:00Z in milliseconds, and seconds around it. *)
Definition clock : Z := 1750032000000.
Definition past : Z := 1750031999.
Definition future : Z := 1750032001.

(** A lock on which the first address holds a valid key and no other
    address holds anything. *)
Definition lock : Env :=
  mkEnv normalise None
        (fun a => inr (eqb a checksummed))
        (fun a => inr (if eqb a checksummed then 1 else 0)%Z)
        (fun _ => inr future)
        clock.

(** Locks that answer every address alike. *)
Definition emptyLock : Env := env (inr false) (inr 0%Z) (inr 0%Z) clock.
Definition expiredLock : Env := env (inr false) (inr 1%Z) (inr past) clock.
Definition pendingLock : Env := env (inr false) (inr 1%Z) (inr future) clock.
Definition silentLock : Env := env (inl silent) (inr 0%Z) (inr 0%Z) clock.
Definition revertedLock : Env := env (inl reverted) (inr 0%Z) (inr 0%Z) clock.
Definition timeoutLock : Env := env (inl timeout) (inr 0%Z) (inr 0%Z) clock.

(** A failure whose message is the empty string. *)
Definition mute : JsError := mkError (Some []).
Definition muteLock : Env := env (inl mute) (inr 0%Z) (inr 0%Z) clock.

(** A key that expires at the very second of [clock], seen at that second
    and one second later. *)
Definition boundaryLock : Env :=
  env (inr false) (inr 1%Z) (inr 1750032000%Z) clock.
Definition boundaryLockLater : Env :=
  env (inr false) (inr 1%Z) (inr 1750032000%Z) (clock + 1000)%Z.

(** A holder is validated, then a stranger, then the contract overlay is
    opened. *)
Definition holderThenStranger : list UiEvent :=
  [InputChanged typed; ValidateRequested lock;
   InputChanged strangerTyped; ValidateRequested lock;
   ContractInfoToggled].

(** The same, with the form reset in between. *)
Definition holderResetStranger : list UiEvent :=
  [InputChanged typed; ValidateRequested lock; ResetClicked;
   InputChanged strangerTyped; ValidateRequested lock;
   ContractInfoToggled].

End Sample.

(* ================================================================== *)
(** ** Console, controls and scenarios *)
(* ================================================================== *)

(** The lines a validation of a non-blank input writes with
    [console.error]: the handler of line 64 logs nothing, the four others
    log their label and the error they caught. *)
Definition loggedLines (e : Env) (input : str) : list (str * JsError) :=
  match getAddress e input with
  | inl _ => []
  | inr a =>
      match newContract e with
      | Some err => [(lit "General validation error:", err)]
      | None =>
          match getHasValidKey e a with
          | inl err => [(lit "Error in getHasValidKey:", err)]
          | inr true => []
          | inr false =>
              match balanceOf e a with
              | inl err => [(lit "Error checking balance:", err)]
              | inr balance =>
                  if (0 <? balance)%Z then
                    match keyExpirationTimestampFor e a with
                    | inl err => [(lit "Error checking expiration:", err)]
                    | inr _ => []
                    end
                  else []
              end
          end
      end
  end.

(** The [disabled] attribute of the validate button (line 223). *)
Definition validateDisabled (s : Store) : bool :=
  negb (truthy (trim (walletAddress s))) || isLoading s.

(** A click on the validate button (lines 221-224): a disabled button fires
    no [onClick]. *)
Definition clickValidate (e : Env) : M unit :=
  disabled <- readStore validateDisabled ;;
  if disabled then ret tt else checkTicketValidity e.

(** The slot [nftDetails] is empty or holds the details of lines 112-116. *)
Definition detailsAreStatic (s : Store) : Prop :=
  nftDetails s = None \/ nftDetails s = Some staticDetails.

(** The slots between two handlers of a session: nothing is loading, the
    details are empty or static, a verdict [true] comes with no diagnostic
    and with the static details, and a diagnostic is never the empty
    string. *)
Definition Coherent (s : Store) : Prop :=
  isLoading s = false
  /\ detailsAreStatic s
  /\ (isValidTicket s = Some true ->
      errorInfo s = None /\ nftDetails s = Some staticDetails)
  /\ errorInfo s <> Some [].

(** The four labels of [console.error]. *)
Definition logLabels : list str :=
  [lit "General validation error:"; lit "Error in getHasValidKey:";
   lit "Error checking balance:"; lit "Error checking expiration:"].

Module Scenario.

(** The RPC provider cannot be constructed. *)
Definition brokenSetup : Env :=
  mkEnv Sample.normalise (Some Sample.silent)
        (fun _ => inr true) (fun _ => inr 1%Z) (fun _ => inr Sample.future)
        Sample.clock.

(** [balanceOf] times out. *)
Definition balanceFails : Env :=
  Sample.env (inr false) (inl Sample.timeout) (inr 0%Z) Sample.clock.

(** [keyExpirationTimestampFor] times out. *)
Definition expirationFails : Env :=
  Sample.env (inr false) (inr 2%Z) (inl Sample.timeout) Sample.clock.


(** [getHasValidKey] reverts, in the words of version 6 of the library. *)
Definition executionReverted : JsError :=
  mkError (Some (lit "execution reverted")).
Definition revertingLock : Env :=
  Sample.env (inl executionReverted) (inr 0%Z) (inr 0%Z) Sample.clock.

(** The lock on which the first address holds a valid key, one second
    later. *)
Definition lockLater : Env :=
  mkEnv Sample.normalise None
        (fun a => inr (Sample.eqb a Sample.checksummed))
        (fun a => inr (if Sample.eqb a Sample.checksummed then 1 else 0)%Z)
        (fun _ => inr Sample.future)
        (Sample.clock + 1000)%Z.

(** The lock with a key still to expire, later within the same second. *)
Definition pendingLockSoon : Env :=
  Sample.env (inr false) (inr 1%Z) (inr Sample.future)
             (Sample.clock + 999)%Z.

(** The page after a holder was validated, with the stranger typed in. *)
Definition afterHolder : World :=
  afterSession [InputChanged Sample.typed; ValidateRequested Sample.lock;
                InputChanged Sample.strangerTyped] initialWorld.

(** A fresh page with the stranger typed in. *)
Definition strangerForm : World := Sample.typedInto Sample.strangerTyped.

(** A session that fails in every way in turn. *)
Definition roughSession : list UiEvent :=
  [ValidateRequested Sample.lock;
   InputChanged (lit "0x1234"); ValidateRequested Sample.lock;
   InputChanged Sample.typed; ValidateRequested brokenSetup;
   ValidateRequested Sample.muteLock; ValidateRequested balanceFails;
   ContractInfoToggled; ValidateRequested expirationFails;
   ResetClicked; ValidateRequested Sample.lock].

End Scenario.

(* ================================================================== *)
(** ** Blank inputs *)
(* ================================================================== *)

Section Trim.

Let ws (c : N) : Prop := isWhiteSpace c = true.

Lemma trimStart_all_whitespace (s : str) :
  Forall ws s -> trimStart s = [].
Proof.
  induction 1 as [| c t Hc _ IH]; cbn.
  - reflexivity.
  - unfold ws in Hc. now rewrite Hc.
Qed.

Lemma trimStart_empty_inv (s : str) :
  trimStart s = [] -> Forall ws s.
Proof.
  induction s as [| c t IH]; cbn; intros H.
  - constructor.
  - destruct (isWhiteSpace c) eqn:Hc.
    + constructor; auto.
    + discriminate.
Qed.

(** What [trimStart] keeps starts with a character that is not whitespace. *)
Lemma trimStart_head (s : str) (c : N) (t : str) :
  trimStart s = c :: t -> isWhiteSpace c = false.
Proof.
  induction s as [| d u IH]; cbn.
  - discriminate.
  - destruct (isWhiteSpace d) eqn:Hd; intros H.
    + auto.
    + now inversion H; subst.
Qed.

Lemma trim_all_whitespace (s : str) :
  Forall ws s -> trim s = [].
Proof.
  intros H. unfold trim, trimEnd.
  now rewrite (trimStart_all_whitespace H).
Qed.

Lemma trim_empty_inv (s : str) :
  trim s = [] -> Forall ws s.
Proof.
  unfold trim, trimEnd. intros H.
  apply trimStart_empty_inv.
  destruct (trimStart s) as [| c t] eqn:Hs; [reflexivity | exfalso].
  apply trimStart_head in Hs.
  assert (Hrev : trimStart (rev (c :: t)) = []).
  { apply (f_equal (@rev N)) in H. now rewrite rev_involutive in H. }
  apply trimStart_empty_inv in Hrev.
  rewrite Forall_forall in Hrev.
  specialize (Hrev c). unfold ws in Hrev.
  rewrite Hrev in Hs; [discriminate |].
  rewrite <- in_rev. now left.
Qed.

(** The guard of line 55 lets through the inputs with a character that is
    not whitespace, and no other. *)
Lemma nonBlank_false_iff (s : str) :
  nonBlank s = false <-> Forall ws s.
Proof.
  unfold nonBlank. split.
  - intros H. apply trim_empty_inv.
    destruct (trim s); [reflexivity | discriminate].
  - intros H. now rewrite (trim_all_whitespace H).
Qed.

End Trim.

(* ================================================================== *)
(** ** The handler against its decision table *)
(* ================================================================== *)

Arguments lit : simpl never.
Arguments trim : simpl never.

Ltac splits :=
  repeat match goal with |- _ /\ _ => split end.

Ltac unfold_handlers :=
  unfold checkTicketValidity, checkValidKey, checkBalance, checkExpiration,
    onValidKeyError, onGeneralError, bind, ret, tryCatch, tryFinally,
    readStore, setIsLoading, setIsValidTicket, setErrorInfo, setNftDetails,
    modifyStore, console_error, ethers_getAddress, new_Contract, await,
    unixNow.


(** Line 55: a blank input returns at once and touches nothing. *)
Lemma checkTicketValidity_blank (e : Env) (w : World) :
  nonBlank (inputOf w) = false ->
  checkTicketValidity e w = (inr tt, w).
Proof.
  unfold nonBlank, inputOf. intros H.
  unfold checkTicketValidity, bind, readStore.
  now rewrite H.
Qed.

(** A validation of a non-blank input returns normally, writes the slots the
    table gives, clears the loading flag and issues the calls the table
    gives. *)
Lemma checkTicketValidity_run (e : Env) (w : World) :
  nonBlank (inputOf w) = true ->
  exists con,
    checkTicketValidity e w =
      (inr tt,
       mkWorld
         (mkStore (inputOf w)
                  (ticketSlot (decide e (inputOf w)))
                  false
                  (if detailsWritten (decide e (inputOf w))
                   then Some staticDetails
                   else nftDetails (store w))
                  (showContractInfo (store w))
                  (errorSlot (decide e (inputOf w))))
         (calls w ++ issuedCalls e (inputOf w))
         con).
Proof.
  unfold nonBlank, inputOf. intros H.
  destruct w as [[input valid loading nft shown err] cs con].
  cbn [store walletAddress nftDetails showContractInfo calls] in *.
  unfold_handlers.
  unfold decide, issuedCalls, callCount, secondaryDiagnostic, classify.
  cbn [store walletAddress nftDetails showContractInfo calls console
       isValidTicket isLoading errorInfo].
  rewrite H. cbn [negb].
  destruct (getAddress e input) as [aerr | a].
  { cbn. rewrite app_nil_r. eauto. }
  destruct (newContract e) as [serr | ].
  { cbn. rewrite app_nil_r. destruct (truthyMessage serr); eauto. }
  destruct (getHasValidKey e a) as [gerr | [ | ]].
  { cbn. destruct (truthyMessage gerr) as [m | ]; cbn; eauto.
    destruct (includes (lit "call revert exception") m); cbn; eauto.
    destruct (includes (lit "network") m); cbn; eauto. }
  { cbn. eauto. }
  destruct (balanceOf e a) as [berr | balance].
  { cbn. rewrite <- app_assoc. eauto. }
  destruct (0 <? balance)%Z.
  2:{ cbn. rewrite <- app_assoc. eauto. }
  destruct (keyExpirationTimestampFor e a) as [kerr | expiration].
  { cbn. rewrite <- !app_assoc. eauto. }
  cbn -[Z.div]. rewrite <- !app_assoc.
  destruct (expiration <? dateNow e / 1000)%Z; cbn; eauto.
Qed.

Lemma checkTicketValidity_nonBlank (e : Env) (w : World) :
  nonBlank (inputOf w) = true ->
  completion e w = inr tt
  /\ store (after e w) =
       mkStore (inputOf w)
               (ticketSlot (decide e (inputOf w)))
               false
               (if detailsWritten (decide e (inputOf w))
                then Some staticDetails
                else nftDetails (store w))
               (showContractInfo (store w))
               (errorSlot (decide e (inputOf w)))
  /\ calls (after e w) = calls w ++ issuedCalls e (inputOf w).
Proof.
  intros H. destruct (checkTicketValidity_run e w H) as [con Hrun].
  unfold completion, after. rewrite Hrun. cbn. auto.
Qed.

(* ================================================================== *)
(** ** The validation sequence *)
(* ================================================================== *)

(** C1. For a well-formed address for which [getHasValidKey] is called and
    returns [true], the validation returns normally with the verdict
    [Valid], no diagnostic, and the ticket details with contract name
    "DappCon25 Ticket", event name "DappCon 2025" and key expiration
    "16th-18th June, 2025". *)
Theorem valid_key_yields_valid (e : Env) (w : World) (a : str) :
  wellFormed e (inputOf w) a ->
  newContract e = None ->
  getHasValidKey e a = inr true ->
  completion e w = inr tt
  /\ validationOutcome (store (after e w)) =
       mkOutcome Valid None
         (Some (mkNFTDetails (lit "DappCon25 Ticket")
                             (lit "DappCon 2025")
                             (Some (lit "16th-18th June, 2025")))).
Proof.
  intros [Hnb Ha] Hn Hg.
  destruct (checkTicketValidity_nonBlank e w Hnb) as (Hr & Hs & _).
  split; [exact Hr |].
  rewrite Hs. unfold decide. rewrite Ha, Hn, Hg. reflexivity.
Qed.

Lemma valid_key_yields_valid_witness :
  wellFormed Sample.lock (inputOf Sample.form) Sample.checksummed
  /\ completion Sample.lock Sample.form = inr tt
  /\ validationOutcome (store (after Sample.lock Sample.form)) =
       mkOutcome Valid None
         (Some (mkNFTDetails (lit "DappCon25 Ticket")
                             (lit "DappCon 2025")
                             (Some (lit "16th-18th June, 2025")))).
Proof.
  assert (Hwf : wellFormed Sample.lock (inputOf Sample.form)
                  Sample.checksummed)
    by (split; reflexivity).
  split; [exact Hwf |].
  apply (@valid_key_yields_valid Sample.lock Sample.form
           Sample.checksummed Hwf);
    reflexivity.
Defined.

(** C2, amended. For a malformed address that is not blank, the validation
    returns normally with the verdict [Unknown], the diagnostic
    "Invalid wallet address format", the loading flag cleared and no contract
    call issued. *)
Theorem malformed_yields_unknown (e : Env) (w : World) :
  nonBlank (inputOf w) = true ->
  malformed e (inputOf w) ->
  completion e w = inr tt
  /\ verdict (store (after e w)) = Unknown
  /\ errorInfo (store (after e w)) =
       Some (lit "Invalid wallet address format")
  /\ isLoading (store (after e w)) = false
  /\ calls (after e w) = calls w.
Proof.
  intros Hnb [err Ha].
  destruct (checkTicketValidity_nonBlank e w Hnb) as (Hr & Hs & Hc).
  rewrite Hs, Hc. unfold decide, issuedCalls. rewrite Ha. cbn.
  rewrite app_nil_r. auto.
Qed.

Lemma malformed_yields_unknown_witness :
  nonBlank (inputOf (Sample.typedInto (lit "0x1234"))) = true
  /\ malformed Sample.lock (inputOf (Sample.typedInto (lit "0x1234")))
  /\ errorInfo (store (after Sample.lock (Sample.typedInto (lit "0x1234"))))
     = Some (lit "Invalid wallet address format")
  /\ calls (after Sample.lock (Sample.typedInto (lit "0x1234"))) = [].
Proof.
  set (e := Sample.lock). set (w := Sample.typedInto (lit "0x1234")).
  assert (Hnb : nonBlank (inputOf w) = true) by reflexivity.
  assert (Hm : malformed e (inputOf w))
    by (exists Sample.invalidAddress; reflexivity).
  split; [exact Hnb |]. split; [exact Hm |].
  destruct (@malformed_yields_unknown e w Hnb Hm) as (_ & _ & He & _ & Hc).
  split; [exact He | exact Hc].
Defined.

(** C2 as written fails on a blank input: it is malformed, and the validation
    leaves the diagnostic empty. *)
Lemma blank_input_gets_no_diagnostic :
  malformed Sample.lock (inputOf (Sample.typedInto (lit "   ")))
  /\ errorInfo (store (after Sample.lock (Sample.typedInto (lit "   "))))
     = None
  /\ errorInfo (store (after Sample.lock (Sample.typedInto (lit "   "))))
     <> Some (lit "Invalid wallet address format").
Proof.
  split; [| split].
  - exists Sample.invalidAddress. reflexivity.
  - reflexivity.
  - discriminate.
Qed.

(** C3. For a well-formed address for which [getHasValidKey] returns [false]
    and [balanceOf] returns 0, the verdict is [Invalid], the diagnostic is
    "No ticket found for this address", and the calls issued are
    [getHasValidKey] then [balanceOf]: [keyExpirationTimestampFor] is not
    called. *)
Theorem zero_balance_yields_no_ticket (e : Env) (w : World) (a : str) :
  wellFormed e (inputOf w) a ->
  newContract e = None ->
  getHasValidKey e a = inr false ->
  balanceOf e a = inr 0%Z ->
  completion e w = inr tt
  /\ verdict (store (after e w)) = Invalid
  /\ errorInfo (store (after e w)) =
       Some (lit "No ticket found for this address")
  /\ calls (after e w) =
       calls w ++ [mkCall GetHasValidKey a; mkCall BalanceOf a]
  /\ occurrences KeyExpirationTimestampFor (calls (after e w)) =
       occurrences KeyExpirationTimestampFor (calls w).
Proof.
  intros [Hnb Ha] Hn Hg Hb.
  destruct (checkTicketValidity_nonBlank e w Hnb) as (Hr & Hs & Hc).
  rewrite Hs, Hc.
  unfold decide, issuedCalls, callCount, secondaryDiagnostic.
  rewrite Ha, Hn, Hg, Hb. cbn.
  splits; auto.
  unfold occurrences. rewrite filter_app, length_app. cbn. lia.
Qed.

Lemma zero_balance_yields_no_ticket_witness :
  wellFormed Sample.emptyLock (inputOf Sample.form) Sample.checksummed
  /\ errorInfo (store (after Sample.emptyLock Sample.form)) =
       Some (lit "No ticket found for this address")
  /\ calls (after Sample.emptyLock Sample.form) =
       [mkCall GetHasValidKey Sample.checksummed;
        mkCall BalanceOf Sample.checksummed].
Proof.
  set (e := Sample.emptyLock). set (w := Sample.form).
  assert (Hwf : wellFormed e (inputOf w) Sample.checksummed)
    by (split; reflexivity).
  split; [exact Hwf |].
  destruct (@zero_balance_yields_no_ticket e w Sample.checksummed Hwf
              eq_refl eq_refl eq_refl) as (_ & _ & He & Hc & _).
  split; [exact He | exact Hc].
Defined.

(** C4. For a well-formed address for which [getHasValidKey] returns
    [false], [balanceOf] returns a value above 0 and
    [keyExpirationTimestampFor] returns [expiration], the verdict is
    [Invalid]; the diagnostic is "Your key has expired" when [expiration] is
    below the current unix time, and
    "You own a key but it appears to be invalid" when it is not. *)
Theorem positive_balance_diagnostics
    (e : Env) (w : World) (a : str) (balance expiration : Z) :
  wellFormed e (inputOf w) a ->
  newContract e = None ->
  getHasValidKey e a = inr false ->
  balanceOf e a = inr balance ->
  (0 < balance)%Z ->
  keyExpirationTimestampFor e a = inr expiration ->
  completion e w = inr tt
  /\ verdict (store (after e w)) = Invalid
  /\ ((expiration < dateNow e / 1000)%Z ->
      errorInfo (store (after e w)) = Some (lit "Your key has expired"))
  /\ ((expiration >= dateNow e / 1000)%Z ->
      errorInfo (store (after e w)) =
        Some (lit "You own a key but it appears to be invalid")).
Proof.
  intros [Hnb Ha] Hn Hg Hb Hpos Hk.
  destruct (checkTicketValidity_nonBlank e w Hnb) as (Hr & Hs & _).
  rewrite Hs. unfold decide, secondaryDiagnostic.
  rewrite Ha, Hn, Hg, Hb, Hk.
  apply Z.ltb_lt in Hpos. rewrite Hpos. cbn -[Z.div].
  splits; auto; intros Hcmp.
  - apply Z.ltb_lt in Hcmp. now rewrite Hcmp.
  - apply Z.ge_le, Z.ltb_ge in Hcmp. now rewrite Hcmp.
Qed.

Lemma positive_balance_diagnostics_witness :
  wellFormed Sample.expiredLock (inputOf Sample.form) Sample.checksummed
  /\ (Sample.past < dateNow Sample.expiredLock / 1000)%Z
  /\ errorInfo (store (after Sample.expiredLock Sample.form)) =
       Some (lit "Your key has expired")
  /\ (Sample.future >= dateNow Sample.pendingLock / 1000)%Z
  /\ errorInfo (store (after Sample.pendingLock Sample.form)) =
       Some (lit "You own a key but it appears to be invalid").
Proof.
  set (expired := Sample.expiredLock). set (pending := Sample.pendingLock).
  set (w := Sample.form).
  assert (Hwf : wellFormed expired (inputOf w) Sample.checksummed)
    by (split; reflexivity).
  assert (Hpast : (Sample.past < dateNow expired / 1000)%Z) by reflexivity.
  assert (Hfut : (Sample.future >= dateNow pending / 1000)%Z)
    by (vm_compute; discriminate).
  destruct (@positive_balance_diagnostics expired w Sample.checksummed
              1%Z Sample.past Hwf eq_refl eq_refl eq_refl eq_refl eq_refl)
    as (_ & _ & Hexp & _).
  destruct (@positive_balance_diagnostics pending w Sample.checksummed
              1%Z Sample.future Hwf eq_refl eq_refl eq_refl eq_refl eq_refl)
    as (_ & _ & _ & Hpend).
  splits; auto.
Defined.



(** Line 121 looks for the words of version 5 of the library, while the
    component calls version 6 (lines 63 and 72-75), which words a revert
    "execution reverted": such a failure is shown through the branch of the
    unclassified messages. *)
Lemma execution_reverted_is_not_recognised :
  indicatesRevert (lit "execution reverted") = false
  /\ errorInfo (store (after Scenario.revertingLock Sample.form)) =
       Some (lit "Error: execution reverted").
Proof.
  split; reflexivity.
Qed.


(** Without a diagnostic the page falls back to the block "No valid ticket
    found for this wallet address". *)
Lemma silent_validKey_failure_view :
  render (store (after Sample.silentLock Sample.form)) =
    mkView None None true None.
Proof. reflexivity. Qed.

(** A message that matches neither pattern is surfaced as it is. *)
Lemma timeout_is_surfaced :
  errorInfo (store (after Sample.timeoutLock Sample.form)) =
    Some (lit "Error: timeout").
Proof. reflexivity. Qed.

(** "Error: Unknown error" is the diagnostic of the outer handler: a failure
    of the constructors with no message. *)
Lemma setup_failure_diagnostic (e : Env) (w : World) (a : str) (err : JsError) :
  wellFormed e (inputOf w) a ->
  newContract e = Some err ->
  completion e w = inr tt
  /\ verdict (store (after e w)) = Invalid
  /\ calls (after e w) = calls w
  /\ errorInfo (store (after e w)) =
       Some (lit "Error: " ++ match truthyMessage err with
                              | Some m => m
                              | None => lit "Unknown error"
                              end).
Proof.
  intros [Hnb Ha] Hn.
  destruct (checkTicketValidity_nonBlank e w Hnb) as (Hr & Hs & Hc).
  rewrite Hs, Hc. unfold decide, issuedCalls, callCount.
  rewrite Ha, Hn. cbn. rewrite app_nil_r. auto.
Qed.

(** C6. A validation adds to the log a prefix of the sequence
    [getHasValidKey], [balanceOf], [keyExpirationTimestampFor], all on the
    normalised address: each method is called at most once and in that
    order.  [balanceOf] is called only after [getHasValidKey] returned
    [false], and [keyExpirationTimestampFor] only after [balanceOf] returned
    a value above 0. *)
Theorem calls_once_in_order (e : Env) (w : World) :
  exists new,
    calls (after e w) = calls w ++ new
    /\ (forall m, occurrences m new <= 1)
    /\ (exists n a, new = firstn n (fullSequence a))
    /\ (forall c, In c new ->
          wellFormed e (inputOf w) (arg c) /\ newContract e = None)
    /\ (forall a, In (mkCall BalanceOf a) new ->
          getHasValidKey e a = inr false)
    /\ (forall a, In (mkCall KeyExpirationTimestampFor a) new ->
          getHasValidKey e a = inr false
          /\ exists balance,
               balanceOf e a = inr balance /\ (0 < balance)%Z).
Proof.
  destruct (nonBlank (inputOf w)) eqn:Hnb.
  2:{ exists []. unfold after.
      rewrite (checkTicketValidity_blank e w Hnb). cbn.
      rewrite app_nil_r. splits; auto; try (intros ? []).
      now exists 0, []. }
  destruct (checkTicketValidity_nonBlank e w Hnb) as (_ & _ & Hc).
  exists (issuedCalls e (inputOf w)). split; [exact Hc |].
  unfold issuedCalls, callCount.
  destruct (getAddress e (inputOf w)) as [aerr | a] eqn:Ha.
  { cbn. splits; auto; try (intros ? []). now exists 0, []. }
  destruct (newContract e) as [serr |] eqn:Hn.
  { cbn. splits; auto; try (intros ? []). now exists 0, []. }
  assert (Hwf : wellFormed e (inputOf w) a) by (split; assumption).
  assert (Hone :
    (forall m, occurrences m (firstn 1 (fullSequence a)) <= 1)
    /\ (exists n a0, firstn 1 (fullSequence a) = firstn n (fullSequence a0))
    /\ (forall c, In c (firstn 1 (fullSequence a)) ->
          wellFormed e (inputOf w) (arg c) /\ None = (None : option JsError))
    /\ (forall a0, In (mkCall BalanceOf a0) (firstn 1 (fullSequence a)) ->
          getHasValidKey e a0 = inr false)
    /\ (forall a0,
          In (mkCall KeyExpirationTimestampFor a0)
             (firstn 1 (fullSequence a)) ->
          getHasValidKey e a0 = inr false
          /\ exists balance,
               balanceOf e a0 = inr balance /\ (0 < balance)%Z)).
  { cbn. splits.
    - intros []; cbn; lia.
    - now exists 1, a.
    - intros c [<- | []]. auto.
    - intros a' [Hc' | []]. discriminate Hc'.
    - intros a' [Hc' | []]. discriminate Hc'. }
  destruct (getHasValidKey e a) as [gerr | [|]] eqn:Hg;
    [exact Hone | exact Hone |].
  clear Hone.
  assert (Htwo :
    (forall m, occurrences m (firstn 2 (fullSequence a)) <= 1)
    /\ (exists n a0, firstn 2 (fullSequence a) = firstn n (fullSequence a0))
    /\ (forall c, In c (firstn 2 (fullSequence a)) ->
          wellFormed e (inputOf w) (arg c) /\ None = (None : option JsError))
    /\ (forall a0, In (mkCall BalanceOf a0) (firstn 2 (fullSequence a)) ->
          getHasValidKey e a0 = inr false)
    /\ (forall a0,
          In (mkCall KeyExpirationTimestampFor a0)
             (firstn 2 (fullSequence a)) ->
          getHasValidKey e a0 = inr false
          /\ exists balance,
               balanceOf e a0 = inr balance /\ (0 < balance)%Z)).
  { cbn. splits.
    - intros []; cbn; lia.
    - now exists 2, a.
    - intros c [<- | [<- | []]]; auto.
    - intros a' [Hc' | [Hc' | []]]; inversion Hc'; subst; exact Hg.
    - intros a' [Hc' | [Hc' | []]]; discriminate Hc'. }
  destruct (balanceOf e a) as [berr | balance] eqn:Hb; [exact Htwo |].
  destruct (0 <? balance)%Z eqn:Hpos; [| exact Htwo].
  clear Htwo. apply Z.ltb_lt in Hpos.
  cbn. splits.
  - intros []; cbn; lia.
  - now exists 3, a.
  - intros c [<- | [<- | [<- | []]]]; auto.
  - intros a' [Hc' | [Hc' | [Hc' | []]]]; inversion Hc'; subst; exact Hg.
  - intros a' [Hc' | [Hc' | [Hc' | []]]]; inversion Hc'; subst.
    split; [exact Hg |]. exists balance. auto.
Qed.

(* ================================================================== *)
(** ** Ticket details across validations *)
(* ================================================================== *)

(** The green block is the only place of the result area that shows the
    details, and it is there only for a [Valid] verdict. *)
Lemma successPanel_only_when_valid (s : Store) (d : option NFTDetails) :
  successPanel (render s) = Some d -> verdict s = Valid.
Proof.
  unfold render, verdict. cbn.
  destruct (isValidTicket s) as [[|] |]; intros H;
    [reflexivity | discriminate | discriminate].
Qed.

(** A validation never clears the slot [nftDetails]. *)
Lemma checkTicketValidity_keeps_details (e : Env) (w : World) (d : NFTDetails) :
  nftDetails (store w) = Some d ->
  exists d', nftDetails (store (after e w)) = Some d'.
Proof.
  intros Hd. destruct (nonBlank (inputOf w)) eqn:Hnb.
  - destruct (checkTicketValidity_nonBlank e w Hnb) as (_ & Hs & _).
    rewrite Hs. cbn. destruct (detailsWritten _); eauto.
  - unfold after. rewrite (checkTicketValidity_blank e w Hnb). eauto.
Qed.

(** [resetForm] does clear it. *)
Lemma resetForm_clears_details (w : World) :
  nftDetails (store (snd (resetForm w))) = None.
Proof. reflexivity. Qed.

(** C7. Ticket details are not confined to [Valid] outcomes.  After a holder
    and then a stranger are validated, the verdict is [Invalid] with its
    diagnostic, yet the slot still holds the ticket details written for the
    holder, and the contract overlay shows them; with a reset in between
    the slot is empty. *)
Theorem details_survive_invalid_validation :
  validationOutcome
    (store (afterSession Sample.holderThenStranger initialWorld)) =
    mkOutcome Invalid
              (Some (lit "No ticket found for this address"))
              (Some staticDetails)
  /\ contractOverlay
       (render (store (afterSession Sample.holderThenStranger initialWorld)))
     = Some (Some staticDetails)
  /\ nftDetails
       (store (afterSession Sample.holderResetStranger initialWorld))
     = None.
Proof.
  splits; reflexivity.
Qed.

(* ================================================================== *)
(** ** Validating twice *)
(* ================================================================== *)

Lemma decide_sameResponses (e1 e2 : Env) (input : str) :
  nonBlank input = true ->
  sameResponses e1 e2 -> clocksAgree e1 e2 input ->
  decide e1 input = decide e2 input.
Proof.
  intros Hnb (Ha & Hn & Hg & Hb & Hk) Hclock.
  unfold decide, secondaryDiagnostic.
  rewrite <- Ha, <- Hn.
  destruct (getAddress e1 input) as [aerr | a] eqn:Haddr; [reflexivity |].
  destruct (newContract e1) eqn:Hnew; [reflexivity |].
  rewrite <- Hg, <- Hb, <- Hk.
  destruct (getHasValidKey e1 a) as [gerr | [|]] eqn:Hkey; try reflexivity.
  destruct (balanceOf e1 a) as [berr | balance] eqn:Hbal; [reflexivity |].
  destruct (0 <? balance)%Z eqn:Hpos; [| reflexivity].
  destruct (keyExpirationTimestampFor e1 a) as [kerr | expiration] eqn:Hexp;
    [reflexivity |].
  apply Z.ltb_lt in Hpos.
  now rewrite (Hclock a balance expiration Hnb Haddr Hnew Hkey Hbal Hpos Hexp).
Qed.

(** C8, amended. Two validations in succession of the same address, with the
    same contract responses and with clock readings that put the key
    expiration the validation reads on the same side of the current unix
    time, leave the same outcome: verdict, diagnostic and details.  When the
    validation reads no expiration, any two clock readings do. *)
Theorem validate_twice_same_outcome (e1 e2 : Env) (w : World) :
  sameResponses e1 e2 ->
  clocksAgree e1 e2 (inputOf w) ->
  validationOutcome (store (after e2 (after e1 w))) =
  validationOutcome (store (after e1 w)).
Proof.
  intros Hsame Hclock.
  destruct (nonBlank (inputOf w)) eqn:Hnb.
  2:{ unfold after at 2 3. rewrite (checkTicketValidity_blank e1 w Hnb).
      cbn [snd]. unfold after.
      now rewrite (checkTicketValidity_blank e2 w Hnb). }
  destruct (checkTicketValidity_nonBlank e1 w Hnb) as (_ & Hs1 & _).
  assert (Hin : inputOf (after e1 w) = inputOf w).
  { unfold inputOf at 1. now rewrite Hs1. }
  assert (Hnb' : nonBlank (inputOf (after e1 w)) = true) by now rewrite Hin.
  destruct (checkTicketValidity_nonBlank e2 (after e1 w) Hnb')
    as (_ & Hs2 & _).
  rewrite Hs2, Hin, Hs1.
  rewrite <- (@decide_sameResponses e1 e2 (inputOf w) Hnb Hsame Hclock).
  unfold validationOutcome, verdict. cbn.
  now destruct (detailsWritten (decide e1 (inputOf w))).
Qed.

Lemma validate_twice_same_outcome_witness :
  (sameResponses Sample.lock Scenario.lockLater
   /\ clocksAgree Sample.lock Scenario.lockLater (inputOf Sample.form)
   /\ dateNow Sample.lock <> dateNow Scenario.lockLater
   /\ validationOutcome
        (store (after Scenario.lockLater (after Sample.lock Sample.form))) =
      validationOutcome (store (after Sample.lock Sample.form)))
  /\ (sameResponses Sample.pendingLock Scenario.pendingLockSoon
      /\ clocksAgree Sample.pendingLock Scenario.pendingLockSoon
                     (inputOf Sample.form)
      /\ dateNow Sample.pendingLock <> dateNow Scenario.pendingLockSoon
      /\ validationOutcome
           (store (after Scenario.pendingLockSoon
                     (after Sample.pendingLock Sample.form))) =
         validationOutcome (store (after Sample.pendingLock Sample.form))).
Proof.
  assert (Hsame : sameResponses Sample.lock Scenario.lockLater)
    by (unfold sameResponses; splits; reflexivity).
  assert (Hclock : clocksAgree Sample.lock Scenario.lockLater
                     (inputOf Sample.form)).
  { intros a balance expiration _ Ha _ Hg _ _ _.
    inversion Ha; subst a. discriminate Hg. }
  assert (Hsame' : sameResponses Sample.pendingLock Scenario.pendingLockSoon)
    by (unfold sameResponses; splits; reflexivity).
  assert (Hclock' : clocksAgree Sample.pendingLock Scenario.pendingLockSoon
                      (inputOf Sample.form)).
  { intros a balance expiration _ _ _ _ _ _ Hk.
    inversion Hk; subst expiration. reflexivity. }
  split.
  - splits; [exact Hsame | exact Hclock | discriminate |].
    exact (@validate_twice_same_outcome Sample.lock Scenario.lockLater
             Sample.form Hsame Hclock).
  - splits; [exact Hsame' | exact Hclock' | discriminate |].
    exact (@validate_twice_same_outcome Sample.pendingLock
             Scenario.pendingLockSoon Sample.form Hsame' Hclock').
Defined.

(** C8 as written fails when the clock passes the expiration between the
    two validations: the contract answers the same, the diagnostic
    changes. *)
Lemma clock_between_validations_changes_outcome :
  sameResponses Sample.boundaryLock Sample.boundaryLockLater
  /\ diagnostic (validationOutcome
                   (store (after Sample.boundaryLock Sample.form))) =
     Some (lit "You own a key but it appears to be invalid")
  /\ diagnostic (validationOutcome
                   (store (after Sample.boundaryLockLater
                             (after Sample.boundaryLock Sample.form)))) =
     Some (lit "Your key has expired")
  /\ validationOutcome
       (store (after Sample.boundaryLockLater
                 (after Sample.boundaryLock Sample.form))) <>
     validationOutcome (store (after Sample.boundaryLock Sample.form)).
Proof.
  splits; try reflexivity.
  - unfold sameResponses. splits; reflexivity.
  - vm_compute. discriminate.
Qed.

(* ================================================================== *)
(** ** Errors stay inside the handler *)
(* ================================================================== *)

(** A validation returns normally; it clears the loading flag unless the
    input is blank, and then it leaves the flag alone. *)
Lemma checkTicketValidity_settles (e : Env) (w : World) :
  completion e w = inr tt
  /\ (nonBlank (inputOf w) = true \/ isLoading (store w) = false ->
      isLoading (store (after e w)) = false).
Proof.
  destruct (nonBlank (inputOf w)) eqn:Hnb.
  - destruct (checkTicketValidity_nonBlank e w Hnb) as (Hr & Hs & _).
    split; [exact Hr |]. intros _. now rewrite Hs.
  - unfold completion, after.
    rewrite (checkTicketValidity_blank e w Hnb). cbn.
    split; [reflexivity |]. intros [H | H]; [discriminate | exact H].
Qed.

Lemma lit_cons_nonempty (a : ascii) (s : string) (t : str) :
  lit (String a s) ++ t <> [].
Proof. discriminate. Qed.

(** C9, amended. A validation never throws.  It clears the loading flag,
    except that a blank input leaves the flag as it was.  Every failure it
    meets on a non-blank input leaves a diagnostic, except a failure of
    [getHasValidKey] whose error has no message or an empty one: that one
    leaves the verdict [Invalid] and no diagnostic. *)
Theorem validation_never_throws (e : Env) (w : World) :
  completion e w = inr tt
  /\ (nonBlank (inputOf w) = true \/ isLoading (store w) = false ->
      isLoading (store (after e w)) = false)
  /\ (forall err,
        nonBlank (inputOf w) = true ->
        Fails e (inputOf w) err ->
        (exists d, errorInfo (store (after e w)) = Some d /\ d <> [])
        \/ (errorInfo (store (after e w)) = None
            /\ verdict (store (after e w)) = Invalid
            /\ truthyMessage err = None
            /\ exists a,
                 wellFormed e (inputOf w) a
                 /\ newContract e = None
                 /\ getHasValidKey e a = inl err)).
Proof.
  destruct (checkTicketValidity_settles e w) as [Hr Hl].
  splits; [exact Hr | exact Hl |].
  intros err Hnb Hfail.
  destruct (checkTicketValidity_nonBlank e w Hnb) as (_ & Hs & _).
  rewrite Hs. unfold verdict. cbn.
  unfold decide, secondaryDiagnostic, classify.
  destruct Hfail as [err Ha | a err Ha Hn | a err Ha Hn Hg
                    | a err Ha Hn Hg Hb | a balance err Ha Hn Hg Hb Hpos Hk].
  - rewrite Ha. cbn. left. eexists. split; [reflexivity | discriminate].
  - rewrite Ha, Hn. cbn. left. eexists. split; [reflexivity |].
    apply lit_cons_nonempty.
  - rewrite Ha, Hn, Hg. cbn.
    destruct (truthyMessage err) as [m |] eqn:Hm.
    + left. eexists. split; [reflexivity |].
      destruct (includes (lit "call revert exception") m);
        [discriminate |].
      destruct (includes (lit "network") m); [discriminate |].
      apply lit_cons_nonempty.
    + right. splits; auto. exists a. unfold wellFormed. auto.
  - rewrite Ha, Hn, Hg, Hb. cbn. left. eexists.
    split; [reflexivity | discriminate].
  - rewrite Ha, Hn, Hg, Hb, Hk. apply Z.ltb_lt in Hpos. rewrite Hpos.
    cbn. left. eexists. split; [reflexivity | discriminate].
Qed.

(** C9 as written fails for a [getHasValidKey] error with an empty message:
    the error is caught, and no diagnostic string is left. *)
Lemma mute_failure_leaves_no_diagnostic :
  nonBlank (inputOf Sample.form) = true
  /\ Fails Sample.muteLock (inputOf Sample.form) Sample.mute
  /\ completion Sample.muteLock Sample.form = inr tt
  /\ errorInfo (store (after Sample.muteLock Sample.form)) = None.
Proof.
  splits; try reflexivity.
  apply fails_validKey with (a := Sample.checksummed); reflexivity.
Qed.

(** In a session the handlers never throw and the form is never left
    loading. *)
Lemma session_settles (evs : list UiEvent) (w : World) :
  isLoading (store w) = false ->
  fst (runSession evs w) = inr tt
  /\ isLoading (store (afterSession evs w)) = false.
Proof.
  unfold afterSession. revert w.
  induction evs as [| ev rest IH]; intros w Hw; cbn.
  - auto.
  - unfold bind.
    assert (Hev : fst (handle ev w) = inr tt
                  /\ isLoading (store (snd (handle ev w))) = false).
    { destruct ev as [v | e | |]; cbn; auto.
      destruct (checkTicketValidity_settles e w) as [Hr Hl]. auto. }
    destruct (handle ev w) as [[err | []] w'] eqn:Hrun; cbn in Hev.
    + destruct Hev as [Hev _]. discriminate Hev.
    + apply IH. apply Hev.
Qed.

(* ================================================================== *)
(** ** The guard on blank inputs *)
(* ================================================================== *)

(** C10. For an input that is empty or made of whitespace only, the handler
    returns at once and leaves the world as it was: the loading flag, the
    verdict, the diagnostic and every other slot are untouched, and no
    contract call is issued. *)
Theorem blank_input_is_noop (e : Env) (w : World) :
  Forall (fun c => isWhiteSpace c = true) (inputOf w) ->
  checkTicketValidity e w = (inr tt, w).
Proof.
  intros H. apply checkTicketValidity_blank.
  now apply nonBlank_false_iff.
Qed.

Lemma blank_input_is_noop_witness :
  Forall (fun c => isWhiteSpace c = true)
         (inputOf (Sample.typedInto [32; 9; 160]%N))
  /\ checkTicketValidity Sample.lock (Sample.typedInto [32; 9; 160]%N) =
     (inr tt, Sample.typedInto [32; 9; 160]%N).
Proof.
  assert (H : Forall (fun c => isWhiteSpace c = true)
                     (inputOf (Sample.typedInto [32; 9; 160]%N)))
    by (repeat constructor).
  split; [exact H |].
  exact (@blank_input_is_noop Sample.lock
           (Sample.typedInto [32; 9; 160]%N) H).
Defined.

(* ================================================================== *)
(** ** The whole effect of a validation *)
(* ================================================================== *)

(** The run of a validation of a non-blank input, console included. *)
Lemma checkTicketValidity_full (e : Env) (w : World) :
  nonBlank (inputOf w) = true ->
  checkTicketValidity e w =
    (inr tt,
     mkWorld
       (mkStore (inputOf w)
                (ticketSlot (decide e (inputOf w)))
                false
                (if detailsWritten (decide e (inputOf w))
                 then Some staticDetails
                 else nftDetails (store w))
                (showContractInfo (store w))
                (errorSlot (decide e (inputOf w))))
       (calls w ++ issuedCalls e (inputOf w))
       (console w ++ loggedLines e (inputOf w))).
Proof.
  unfold nonBlank, inputOf. intros H.
  destruct w as [[input valid loading nft shown err] cs con].
  cbn [store walletAddress nftDetails showContractInfo calls console] in *.
  unfold_handlers.
  unfold decide, issuedCalls, callCount, secondaryDiagnostic, classify,
    loggedLines.
  cbn [store walletAddress nftDetails showContractInfo calls console
       isValidTicket isLoading errorInfo].
  rewrite H. cbn [negb].
  destruct (getAddress e input) as [aerr | a].
  { cbn. now rewrite !app_nil_r. }
  destruct (newContract e) as [serr | ].
  { cbn. rewrite app_nil_r. now destruct (truthyMessage serr). }
  destruct (getHasValidKey e a) as [gerr | [ | ]].
  { cbn. destruct (truthyMessage gerr) as [m | ]; cbn; auto.
    destruct (includes (lit "call revert exception") m); cbn; auto.
    destruct (includes (lit "network") m); cbn; auto. }
  { cbn. now rewrite app_nil_r. }
  destruct (balanceOf e a) as [berr | balance].
  { cbn. now rewrite <- app_assoc. }
  destruct (0 <? balance)%Z.
  2:{ cbn. now rewrite <- app_assoc, app_nil_r. }
  destruct (keyExpirationTimestampFor e a) as [kerr | expiration].
  { cbn. now rewrite <- !app_assoc. }
  cbn -[Z.div]. rewrite <- !app_assoc, app_nil_r.
  now destruct (expiration <? dateNow e / 1000)%Z.
Qed.

(** A diagnostic the table gives is never the empty string. *)
Lemma decide_diagnostic_nonempty (e : Env) (input d : str) :
  errorSlot (decide e input) = Some d -> truthy d = true.
Proof.
  unfold decide, classify, secondaryDiagnostic.
  destruct (getAddress e input) as [aerr | a].
  { cbn. intros H. now inversion H. }
  destruct (newContract e) as [serr |].
  { cbn. intros H. now inversion H. }
  destruct (getHasValidKey e a) as [gerr | [|]]; cbn.
  - destruct (truthyMessage gerr) as [m |]; [| discriminate].
    intros H. inversion H.
    destruct (includes (lit "call revert exception") m); [reflexivity |].
    destruct (includes (lit "network") m); reflexivity.
  - discriminate.
  - intros H. inversion H.
    destruct (balanceOf e a) as [berr | balance]; [reflexivity |].
    destruct (0 <? balance)%Z; [| reflexivity].
    destruct (keyExpirationTimestampFor e a) as [kerr | x]; [reflexivity |].
    now destruct (x <? dateNow e / 1000)%Z.
Qed.

(** The slot of the details after a validation: as before, or the static
    details. *)
Lemma checkTicketValidity_details (e : Env) (w : World) :
  nftDetails (store (after e w)) = nftDetails (store w)
  \/ nftDetails (store (after e w)) = Some staticDetails.
Proof.
  destruct (nonBlank (inputOf w)) eqn:Hnb.
  - destruct (checkTicketValidity_nonBlank e w Hnb) as (_ & Hs & _).
    rewrite Hs. cbn. destruct (detailsWritten _); auto.
  - unfold after. rewrite (checkTicketValidity_blank e w Hnb). auto.
Qed.

(* ================================================================== *)
(** ** Failures of the secondary checks and of the set-up *)
(* ================================================================== *)

(** X1. When [getHasValidKey] returned [false] and [balanceOf] fails, the
    validation returns normally with the verdict [Invalid], the fixed
    diagnostic "Error checking key ownership" (the message of the error is
    not shown), the loading flag cleared, no call to
    [keyExpirationTimestampFor], and one console line with the error. *)
Theorem balance_failure_diagnostic
    (e : Env) (w : World) (a : str) (err : JsError) :
  wellFormed e (inputOf w) a ->
  newContract e = None ->
  getHasValidKey e a = inr false ->
  balanceOf e a = inl err ->
  completion e w = inr tt
  /\ verdict (store (after e w)) = Invalid
  /\ errorInfo (store (after e w)) = Some (lit "Error checking key ownership")
  /\ isLoading (store (after e w)) = false
  /\ calls (after e w) =
       calls w ++ [mkCall GetHasValidKey a; mkCall BalanceOf a]
  /\ console (after e w) =
       console w ++ [(lit "Error checking balance:", err)].
Proof.
  intros [Hnb Ha] Hn Hg Hb.
  unfold completion, after. rewrite (checkTicketValidity_full e w Hnb).
  unfold decide, secondaryDiagnostic, issuedCalls, callCount, loggedLines.
  rewrite Ha, Hn, Hg, Hb. cbn. splits; reflexivity.
Qed.

Lemma balance_failure_diagnostic_witness :
  wellFormed Scenario.balanceFails (inputOf Sample.form) Sample.checksummed
  /\ errorInfo (store (after Scenario.balanceFails Sample.form)) =
       Some (lit "Error checking key ownership")
  /\ console (after Scenario.balanceFails Sample.form) =
       [(lit "Error checking balance:", Sample.timeout)].
Proof.
  assert (Hwf : wellFormed Scenario.balanceFails (inputOf Sample.form)
                  Sample.checksummed)
    by (split; reflexivity).
  destruct (@balance_failure_diagnostic Scenario.balanceFails Sample.form
              Sample.checksummed Sample.timeout Hwf eq_refl eq_refl eq_refl)
    as (_ & _ & He & _ & _ & Hc).
  splits; [exact Hwf | exact He | exact Hc].
Defined.

(** X2. When [getHasValidKey] returned [false], [balanceOf] returned a value
    above 0 and [keyExpirationTimestampFor] fails, the validation returns
    normally with the verdict [Invalid], the fixed diagnostic
    "Error checking key expiration", the loading flag cleared, the three
    calls issued, and one console line with the error. *)
Theorem expiration_failure_diagnostic
    (e : Env) (w : World) (a : str) (balance : Z) (err : JsError) :
  wellFormed e (inputOf w) a ->
  newContract e = None ->
  getHasValidKey e a = inr false ->
  balanceOf e a = inr balance ->
  (0 < balance)%Z ->
  keyExpirationTimestampFor e a = inl err ->
  completion e w = inr tt
  /\ verdict (store (after e w)) = Invalid
  /\ errorInfo (store (after e w)) =
       Some (lit "Error checking key expiration")
  /\ isLoading (store (after e w)) = false
  /\ calls (after e w) = calls w ++ fullSequence a
  /\ console (after e w) =
       console w ++ [(lit "Error checking expiration:", err)].
Proof.
  intros [Hnb Ha] Hn Hg Hb Hpos Hk.
  unfold completion, after. rewrite (checkTicketValidity_full e w Hnb).
  unfold decide, secondaryDiagnostic, issuedCalls, callCount, loggedLines.
  apply Z.ltb_lt in Hpos.
  rewrite Ha, Hn, Hg, Hb, Hpos, Hk. cbn. splits; reflexivity.
Qed.

Lemma expiration_failure_diagnostic_witness :
  wellFormed Scenario.expirationFails (inputOf Sample.form)
             Sample.checksummed
  /\ (0 < 2)%Z
  /\ errorInfo (store (after Scenario.expirationFails Sample.form)) =
       Some (lit "Error checking key expiration")
  /\ calls (after Scenario.expirationFails Sample.form) =
       fullSequence Sample.checksummed.
Proof.
  assert (Hwf : wellFormed Scenario.expirationFails (inputOf Sample.form)
                  Sample.checksummed)
    by (split; reflexivity).
  destruct (@expiration_failure_diagnostic Scenario.expirationFails
              Sample.form Sample.checksummed 2%Z Sample.timeout
              Hwf eq_refl eq_refl eq_refl eq_refl eq_refl)
    as (_ & _ & He & _ & Hc & _).
  splits; [exact Hwf | reflexivity | exact He | exact Hc].
Defined.

(** X3. When one of the constructors of lines 72-75 throws, the outer
    handler recovers: the validation returns normally with the verdict
    [Invalid], no contract call, the loading flag cleared, one console line,
    and the diagnostic "Error: " followed by the message of the error, or
    by "Unknown error" when the message is missing or empty. *)
Theorem setup_failure_recovered
    (e : Env) (w : World) (a : str) (err : JsError) :
  wellFormed e (inputOf w) a ->
  newContract e = Some err ->
  completion e w = inr tt
  /\ verdict (store (after e w)) = Invalid
  /\ isLoading (store (after e w)) = false
  /\ calls (after e w) = calls w
  /\ console (after e w) =
       console w ++ [(lit "General validation error:", err)]
  /\ (forall m, message err = Some m -> m <> [] ->
        errorInfo (store (after e w)) = Some (lit "Error: " ++ m))
  /\ (message err = None \/ message err = Some [] ->
      errorInfo (store (after e w)) = Some (lit "Error: Unknown error")).
Proof.
  intros [Hnb Ha] Hn.
  unfold completion, after. rewrite (checkTicketValidity_full e w Hnb).
  unfold decide, issuedCalls, callCount, loggedLines, truthyMessage.
  rewrite Ha, Hn. cbn. rewrite app_nil_r.
  splits; auto.
  - intros m Hm Hne. rewrite Hm.
    destruct m as [| c m']; [contradiction | reflexivity].
  - intros [Hm | Hm]; now rewrite Hm.
Qed.

Lemma setup_failure_recovered_witness :
  wellFormed Scenario.brokenSetup (inputOf Sample.form) Sample.checksummed
  /\ newContract Scenario.brokenSetup = Some Sample.silent
  /\ verdict (store (after Scenario.brokenSetup Sample.form)) = Invalid
  /\ calls (after Scenario.brokenSetup Sample.form) = []
  /\ errorInfo (store (after Scenario.brokenSetup Sample.form)) =
       Some (lit "Error: Unknown error").
Proof.
  assert (Hwf : wellFormed Scenario.brokenSetup (inputOf Sample.form)
                  Sample.checksummed)
    by (split; reflexivity).
  destruct (@setup_failure_recovered Scenario.brokenSetup Sample.form
              Sample.checksummed Sample.silent Hwf eq_refl)
    as (_ & Hv & _ & Hc & _ & _ & He).
  splits; [exact Hwf | reflexivity | exact Hv | exact Hc |].
  apply He. left. reflexivity.
Defined.

(** X4. A validation of a non-blank input writes at most one console line.
    Every line it writes carries one of the four labels and an error the
    validation met.  It writes none exactly when the address is malformed
    (that handler does not log) or when no step failed. *)
Theorem errors_logged_at_most_once (e : Env) (w : World) :
  nonBlank (inputOf w) = true ->
  exists l,
    console (after e w) = console w ++ l
    /\ List.length l <= 1
    /\ (forall entry, In entry l ->
          In (fst entry) logLabels /\ Fails e (inputOf w) (snd entry))
    /\ (l = [] <->
        malformed e (inputOf w) \/ forall err, ~ Fails e (inputOf w) err).
Proof.
  intros Hnb. exists (loggedLines e (inputOf w)).
  split.
  { unfold after. now rewrite (checkTicketValidity_full e w Hnb). }
  unfold loggedLines, malformed, logLabels.
  destruct (getAddress e (inputOf w)) as [aerr | a] eqn:Ha.
  { splits; auto; try (intros ? []).
    split; auto. intros _. left. eauto. }
  assert (Hwell : ~ exists err : JsError, @inr JsError str a = inl err)
    by (intros [x Hx]; discriminate).
  destruct (newContract e) as [serr |] eqn:Hn.
  { splits; cbn; auto.
    - intros entry [<- | []]. cbn. split; [tauto |].
      eapply fails_setup; eauto.
    - split; [discriminate |].
      intros [Hm | Hno]; [contradiction |].
      exfalso. apply (Hno serr). eapply fails_setup; eauto. }
  destruct (getHasValidKey e a) as [gerr | [|]] eqn:Hg.
  { splits; cbn; auto.
    - intros entry [<- | []]. cbn. split; [tauto |].
      eapply fails_validKey; eauto.
    - split; [discriminate |].
      intros [Hm | Hno]; [contradiction |].
      exfalso. apply (Hno gerr). eapply fails_validKey; eauto. }
  { splits; cbn; auto; try (intros ? []).
    split; auto. intros _. right. intros err Hf.
    inversion Hf; congruence. }
  destruct (balanceOf e a) as [berr | balance] eqn:Hb.
  { splits; cbn; auto.
    - intros entry [<- | []]. cbn. split; [tauto |].
      eapply fails_balance; eauto.
    - split; [discriminate |].
      intros [Hm | Hno]; [contradiction |].
      exfalso. apply (Hno berr). eapply fails_balance; eauto. }
  destruct (0 <? balance)%Z eqn:Hpos.
  2:{ apply Z.ltb_ge in Hpos.
      splits; cbn; auto; try (intros ? []).
      split; auto. intros _. right. intros err Hf.
      inversion Hf; try congruence.
      assert (balance0 = balance) by congruence. lia. }
  apply Z.ltb_lt in Hpos.
  destruct (keyExpirationTimestampFor e a) as [kerr | x] eqn:Hk.
  { splits; cbn; auto.
    - intros entry [<- | []]. cbn. split; [tauto |].
      eapply fails_expiration; eauto.
    - split; [discriminate |].
      intros [Hm | Hno]; [contradiction |].
      exfalso. apply (Hno kerr). eapply fails_expiration; eauto. }
  splits; cbn; auto; try (intros ? []).
  split; auto. intros _. right. intros err Hf.
  inversion Hf; congruence.
Qed.

Lemma errors_logged_at_most_once_witness :
  nonBlank (inputOf Sample.form) = true
  /\ exists l,
       console (after Sample.muteLock Sample.form) =
         console Sample.form ++ l
       /\ List.length l <= 1.
Proof.
  split; [reflexivity |].
  destruct (@errors_logged_at_most_once Sample.muteLock Sample.form
              eq_refl) as (l & Hc & Hl & _).
  exists l. split; [exact Hc | exact Hl].
Defined.

(* ================================================================== *)
(** ** What the verdict means *)
(* ================================================================== *)

(** X5. After a validation of a non-blank input the verdict is [Valid]
    exactly when the address was normalised, the contract was constructed
    and [getHasValidKey] returned [true] on the normalised address: no
    failure and no other answer ever yields [Valid]. *)
Theorem valid_iff_contract_says_so (e : Env) (w : World) :
  nonBlank (inputOf w) = true ->
  (verdict (store (after e w)) = Valid
   <-> exists a,
         getAddress e (inputOf w) = inr a
         /\ newContract e = None
         /\ getHasValidKey e a = inr true).
Proof.
  intros Hnb.
  destruct (checkTicketValidity_nonBlank e w Hnb) as (_ & Hs & _).
  rewrite Hs. unfold verdict, decide. cbn.
  destruct (getAddress e (inputOf w)) as [aerr | a].
  { cbn. split; [discriminate | intros (x & Hx & _); discriminate]. }
  destruct (newContract e) as [serr |].
  { cbn. split; [discriminate | intros (x & _ & Hx & _); discriminate]. }
  destruct (getHasValidKey e a) as [gerr | [|]] eqn:Hg; cbn.
  - split; [discriminate |].
    intros (x & Hx & _ & Hgx). inversion Hx; subst. congruence.
  - split; [| reflexivity]. intros _. exists a. auto.
  - split; [discriminate |].
    intros (x & Hx & _ & Hgx). inversion Hx; subst. congruence.
Qed.

Lemma valid_iff_contract_says_so_witness :
  nonBlank (inputOf Sample.form) = true
  /\ verdict (store (after Sample.lock Sample.form)) = Valid
  /\ verdict (store (after Sample.lock Scenario.strangerForm)) <> Valid.
Proof.
  splits.
  - reflexivity.
  - apply (@valid_iff_contract_says_so Sample.lock Sample.form eq_refl).
    exists Sample.checksummed. splits; reflexivity.
  - intros H.
    apply (@valid_iff_contract_says_so Sample.lock Scenario.strangerForm
             eq_refl) in H.
    destruct H as (a & Ha & _ & Hg).
    inversion Ha; subst. discriminate Hg.
Defined.

(** X6. After a validation of a non-blank input the verdict is [Unknown]
    exactly when the address is malformed; every other run settles on
    [Valid] or [Invalid]. *)
Theorem unknown_iff_malformed (e : Env) (w : World) :
  nonBlank (inputOf w) = true ->
  (verdict (store (after e w)) = Unknown <-> malformed e (inputOf w)).
Proof.
  intros Hnb.
  destruct (checkTicketValidity_nonBlank e w Hnb) as (_ & Hs & _).
  rewrite Hs. unfold verdict, decide, malformed. cbn.
  destruct (getAddress e (inputOf w)) as [aerr | a].
  { cbn. split; [eauto | reflexivity]. }
  assert (Hno : forall v : option bool,
            v <> None ->
            (match v with
             | Some true => Valid
             | Some false => Invalid
             | None => Unknown
             end = Unknown
             <-> exists err : JsError, @inr JsError str a = inl err)).
  { intros [[|] |] Hv; split; try discriminate;
      try (intros [x Hx]; discriminate). contradiction. }
  destruct (newContract e) as [serr |]; [apply Hno; discriminate |].
  destruct (getHasValidKey e a) as [gerr | [|]];
    apply Hno; discriminate.
Qed.

Lemma unknown_iff_malformed_witness :
  nonBlank (inputOf (Sample.typedInto (lit "0x1234"))) = true
  /\ verdict (store (after Sample.lock (Sample.typedInto (lit "0x1234"))))
     = Unknown.
Proof.
  split; [reflexivity |].
  apply (@unknown_iff_malformed Sample.lock
           (Sample.typedInto (lit "0x1234")) eq_refl).
  exists Sample.invalidAddress. reflexivity.
Defined.

(* ================================================================== *)
(** ** What the page shows after a validation *)
(* ================================================================== *)

(** X7. After a validation of a non-blank input the page shows exactly one
    of its three result blocks: the red block with a diagnostic that is not
    empty, or the green block with the static details, or the red block
    without a diagnostic. *)
Theorem exactly_one_result_block (e : Env) (w : World) :
  nonBlank (inputOf w) = true ->
  let v := render (store (after e w)) in
  ((exists d, errorPanel v = Some d /\ d <> [])
   /\ successPanel v = None /\ noTicketPanel v = false)
  \/ (errorPanel v = None
      /\ successPanel v = Some (Some staticDetails)
      /\ noTicketPanel v = false)
  \/ (errorPanel v = None /\ successPanel v = None
      /\ noTicketPanel v = true).
Proof.
  intros Hnb.
  destruct (checkTicketValidity_nonBlank e w Hnb) as (_ & Hs & _).
  cbv zeta. rewrite Hs. unfold render, hasDiagnostic. cbn.
  pose proof (@decide_diagnostic_nonempty e (inputOf w)) as Hne.
  unfold decide in *.
  destruct (getAddress e (inputOf w)) as [aerr | a].
  { cbn. left. splits; auto. eexists. split; [reflexivity | discriminate]. }
  destruct (newContract e) as [serr |].
  { cbn in *. specialize (Hne _ eq_refl). rewrite Hne. left.
    splits; auto. eexists. split; [reflexivity |].
    intros H. rewrite H in Hne. discriminate. }
  destruct (getHasValidKey e a) as [gerr | [|]]; cbn in *.
  - destruct (classify gerr) as [d |].
    + specialize (Hne _ eq_refl). rewrite Hne. left. splits; auto.
      exists d. split; [reflexivity |].
      intros H. rewrite H in Hne. discriminate.
    + right. right. auto.
  - right. left. auto.
  - specialize (Hne _ eq_refl). rewrite Hne. left. splits; auto.
    eexists. split; [reflexivity |].
    intros H. rewrite H in Hne. discriminate.
Qed.

Lemma exactly_one_result_block_witness :
  nonBlank (inputOf Sample.form) = true
  /\ errorPanel (render (store (after Sample.muteLock Sample.form))) = None
  /\ successPanel (render (store (after Sample.muteLock Sample.form))) = None
  /\ noTicketPanel (render (store (after Sample.muteLock Sample.form)))
     = true.
Proof.
  split; [reflexivity |].
  destruct (@exactly_one_result_block Sample.muteLock Sample.form eq_refl)
    as [(_ & _ & H) | [(_ & _ & H) | H]].
  - discriminate H.
  - discriminate H.
  - exact H.
Defined.

(** X8. After a validation of a non-blank input the block "No valid ticket
    found for this wallet address" is shown exactly when [getHasValidKey]
    itself failed with an error that has no message or an empty one; it is
    never shown for a wallet on which the contract answered [false]. *)
Theorem generic_block_iff_silent_failure (e : Env) (w : World) :
  nonBlank (inputOf w) = true ->
  (noTicketPanel (render (store (after e w))) = true
   <-> exists a err,
         getAddress e (inputOf w) = inr a
         /\ newContract e = None
         /\ getHasValidKey e a = inl err
         /\ truthyMessage err = None).
Proof.
  intros Hnb.
  destruct (checkTicketValidity_nonBlank e w Hnb) as (_ & Hs & _).
  rewrite Hs. unfold render, hasDiagnostic. cbn.
  pose proof (@decide_diagnostic_nonempty e (inputOf w)) as Hne.
  unfold decide in *.
  destruct (getAddress e (inputOf w)) as [aerr | a].
  { cbn. split; [discriminate | intros (x & y & Hx & _); discriminate]. }
  destruct (newContract e) as [serr |].
  { cbn in *. rewrite (Hne _ eq_refl). cbn.
    split; [discriminate | intros (x & y & _ & Hx & _); discriminate]. }
  destruct (getHasValidKey e a) as [gerr | [|]] eqn:Hg; cbn in *.
  - unfold classify in *. destruct (truthyMessage gerr) as [m |] eqn:Hm.
    + cbn in *. rewrite (Hne _ eq_refl). cbn. split; [discriminate |].
      intros (x & y & Hx & _ & Hy & Hz). inversion Hx; subst.
      rewrite Hg in Hy. inversion Hy; subst. congruence.
    + cbn. split; [| reflexivity]. intros _. exists a, gerr. auto.
  - split; [discriminate |].
    intros (x & y & Hx & _ & Hy & _). inversion Hx; subst. congruence.
  - rewrite (Hne _ eq_refl). cbn. split; [discriminate |].
    intros (x & y & Hx & _ & Hy & _). inversion Hx; subst. congruence.
Qed.

Lemma generic_block_iff_silent_failure_witness :
  nonBlank (inputOf Sample.form) = true
  /\ noTicketPanel (render (store (after Sample.silentLock Sample.form)))
     = true
  /\ noTicketPanel (render (store (after Sample.emptyLock Sample.form)))
     <> true.
Proof.
  splits.
  - reflexivity.
  - apply (@generic_block_iff_silent_failure Sample.silentLock Sample.form
             eq_refl).
    exists Sample.checksummed, Sample.silent. splits; reflexivity.
  - intros H.
    apply (@generic_block_iff_silent_failure Sample.emptyLock Sample.form
             eq_refl) in H.
    destruct H as (a & err & _ & _ & Hg & _). discriminate Hg.
Defined.

(* ================================================================== *)
(** ** Frame and sessions *)
(* ================================================================== *)

(** X9. A validation never changes the address typed in nor the visibility
    of the contract overlay, and it changes the ticket details in one way
    only: by writing the static details, together with the verdict [Valid]
    and no diagnostic. *)
Theorem validation_frame (e : Env) (w : World) :
  walletAddress (store (after e w)) = walletAddress (store w)
  /\ showContractInfo (store (after e w)) = showContractInfo (store w)
  /\ (nftDetails (store (after e w)) = nftDetails (store w)
      \/ (nftDetails (store (after e w)) = Some staticDetails
          /\ verdict (store (after e w)) = Valid
          /\ errorInfo (store (after e w)) = None)).
Proof.
  destruct (nonBlank (inputOf w)) eqn:Hnb.
  2:{ unfold after. rewrite (checkTicketValidity_blank e w Hnb). auto. }
  destruct (checkTicketValidity_nonBlank e w Hnb) as (_ & Hs & _).
  rewrite Hs. unfold verdict, decide. cbn. splits; auto.
  destruct (getAddress e (inputOf w)) as [aerr | a]; [auto |].
  destruct (newContract e) as [serr |]; [auto |].
  destruct (getHasValidKey e a) as [gerr | [|]]; cbn; auto.
Qed.

Lemma decide_valid_is_clean (e : Env) (input : str) :
  ticketSlot (decide e input) = Some true ->
  errorSlot (decide e input) = None
  /\ detailsWritten (decide e input) = true.
Proof.
  unfold decide.
  destruct (getAddress e input) as [aerr | a]; [discriminate |].
  destruct (newContract e) as [serr |]; [discriminate |].
  destruct (getHasValidKey e a) as [gerr | [|]]; cbn;
    [discriminate | auto | discriminate].
Qed.

(** Every handler returns normally and keeps the slots coherent. *)
Lemma handle_coherent (ev : UiEvent) (w : World) :
  Coherent (store w) ->
  fst (handle ev w) = inr tt /\ Coherent (store (snd (handle ev w))).
Proof.
  unfold Coherent, detailsAreStatic.
  intros (Hl & Hd & Hv & He).
  destruct ev as [v | e | |].
  - cbn. auto.
  - cbn [handle]. fold (completion e w). fold (after e w).
    destruct (nonBlank (inputOf w)) eqn:Hnb.
    2:{ unfold completion, after.
        rewrite (checkTicketValidity_blank e w Hnb). cbn. auto. }
    destruct (checkTicketValidity_nonBlank e w Hnb) as (Hr & Hs & _).
    split; [exact Hr |]. rewrite Hs. cbn. splits.
    + reflexivity.
    + destruct (detailsWritten _); auto.
    + intros Ht. destruct (@decide_valid_is_clean e (inputOf w) Ht)
        as [Hclean Hw].
      rewrite Hw. auto.
    + intros Hempty.
      apply decide_diagnostic_nonempty in Hempty. discriminate.
  - cbn. splits; auto; discriminate.
  - cbn. auto.
Qed.

Lemma session_coherent (evs : list UiEvent) (w : World) :
  Coherent (store w) ->
  fst (runSession evs w) = inr tt
  /\ Coherent (store (afterSession evs w)).
Proof.
  unfold afterSession. revert w.
  induction evs as [| ev rest IH]; intros w Hw; cbn.
  - auto.
  - unfold bind.
    destruct (@handle_coherent ev w Hw) as [Hr Hc].
    destruct (handle ev w) as [[err | []] w'] eqn:Hrun; cbn in Hr, Hc.
    + discriminate Hr.
    + apply IH. exact Hc.
Qed.

Lemma initial_coherent : Coherent (store initialWorld).
Proof.
  unfold Coherent, detailsAreStatic. cbn. splits; auto; discriminate.
Qed.

(** X10. In a session that starts with nothing loading, whatever the user
    types and however the contract, the provider and the normaliser fail,
    no handler throws and the page is never left loading: the validate
    button is enabled again as soon as the input is not blank. *)
Theorem session_stays_responsive (evs : list UiEvent) (w : World) :
  isLoading (store w) = false ->
  fst (runSession evs w) = inr tt
  /\ isLoading (store (afterSession evs w)) = false
  /\ validateDisabled (store (afterSession evs w)) =
       negb (nonBlank (inputOf (afterSession evs w))).
Proof.
  intros Hw. destruct (@session_settles evs w Hw) as [Hr Hl].
  splits; [exact Hr | exact Hl |].
  unfold validateDisabled, nonBlank, inputOf. rewrite Hl.
  apply orb_false_r.
Qed.

Lemma session_stays_responsive_witness :
  isLoading (store initialWorld) = false
  /\ fst (runSession Scenario.roughSession initialWorld) = inr tt
  /\ isLoading (store (afterSession Scenario.roughSession initialWorld))
     = false.
Proof.
  split; [reflexivity |].
  destruct (@session_stays_responsive Scenario.roughSession initialWorld
              eq_refl) as (Hr & Hl & _).
  split; [exact Hr | exact Hl].
Defined.

(** X11. On a page used from its fresh state, whenever the green block is
    shown it shows the static ticket details and no diagnostic is set; and
    the slot of the details holds nothing else than those details. *)
Theorem green_block_shows_static_details (evs : list UiEvent) :
  let s := store (afterSession evs initialWorld) in
  detailsAreStatic s
  /\ (forall d, successPanel (render s) = Some d ->
        d = Some staticDetails /\ errorPanel (render s) = None).
Proof.
  destruct (@session_coherent evs initialWorld initial_coherent)
    as (_ & _ & Hd & Hv & _).
  cbv zeta. split; [exact Hd |].
  intros d. unfold render, hasDiagnostic. cbn.
  destruct (isValidTicket (store (afterSession evs initialWorld)))
    as [[|] |]; try discriminate.
  destruct (Hv eq_refl) as [He Hn]. rewrite He, Hn.
  intros H. now inversion H.
Qed.

(** X12. The verdict, the diagnostic and the calls of a validation of a
    non-blank input depend on the input and on the environment only: what
    the slots held before (an earlier verdict, diagnostic or details) does
    not leak into them. *)
Theorem outcome_independent_of_history (e : Env) (w1 w2 : World) :
  inputOf w1 = inputOf w2 ->
  nonBlank (inputOf w1) = true ->
  verdict (store (after e w1)) = verdict (store (after e w2))
  /\ errorInfo (store (after e w1)) = errorInfo (store (after e w2))
  /\ isLoading (store (after e w1)) = isLoading (store (after e w2))
  /\ (exists new,
        calls (after e w1) = calls w1 ++ new
        /\ calls (after e w2) = calls w2 ++ new).
Proof.
  intros Hin Hnb1.
  assert (Hnb2 : nonBlank (inputOf w2) = true) by now rewrite <- Hin.
  destruct (checkTicketValidity_nonBlank e w1 Hnb1) as (_ & Hs1 & Hc1).
  destruct (checkTicketValidity_nonBlank e w2 Hnb2) as (_ & Hs2 & Hc2).
  rewrite Hs1, Hs2, Hin. unfold verdict. cbn. splits; auto.
  exists (issuedCalls e (inputOf w2)). rewrite <- Hin at 1. auto.
Qed.

Lemma outcome_independent_of_history_witness :
  inputOf Scenario.afterHolder = inputOf Scenario.strangerForm
  /\ nonBlank (inputOf Scenario.afterHolder) = true
  /\ isValidTicket (store Scenario.afterHolder) = Some true
  /\ verdict (store (after Sample.lock Scenario.afterHolder)) =
     verdict (store (after Sample.lock Scenario.strangerForm))
  /\ errorInfo (store (after Sample.lock Scenario.afterHolder)) =
     errorInfo (store (after Sample.lock Scenario.strangerForm)).
Proof.
  destruct (@outcome_independent_of_history Sample.lock
              Scenario.afterHolder Scenario.strangerForm eq_refl eq_refl)
    as (Hv & He & _).
  splits; [reflexivity | reflexivity | reflexivity | exact Hv | exact He].
Defined.

(* ================================================================== *)
(** ** Reset, overlay and button *)
(* ================================================================== *)

(** [resetForm] empties the input and clears verdict, diagnostic and
    details, so that no result block is shown; it leaves the loading flag,
    the overlay, the call log and the console alone.  A validation requested
    right after it does nothing. *)
Theorem reset_clears_outcome (e : Env) (w : World) :
  (resetForm ;; checkTicketValidity e) w = resetForm w
  /\ fst (resetForm w) = inr tt
  /\ store (snd (resetForm w)) =
       mkStore [] None (isLoading (store w)) None
               (showContractInfo (store w)) None
  /\ calls (snd (resetForm w)) = calls w
  /\ console (snd (resetForm w)) = console w
  /\ errorPanel (render (store (snd (resetForm w)))) = None
  /\ successPanel (render (store (snd (resetForm w)))) = None
  /\ noTicketPanel (render (store (snd (resetForm w)))) = false.
Proof.
  splits; reflexivity.
Qed.

(** X14. Opening or closing the contract overlay and validating commute:
    both orders leave the same world.  The toggle touches neither verdict,
    diagnostic nor details, and two toggles restore the world. *)
Theorem toggle_commutes_with_validation (e : Env) (w : World) :
  (toggleContractInfo ;; checkTicketValidity e) w =
  (checkTicketValidity e ;; toggleContractInfo) w
  /\ validationOutcome (store (snd (toggleContractInfo w))) =
     validationOutcome (store w)
  /\ (toggleContractInfo ;; toggleContractInfo) w = (inr tt, w).
Proof.
  splits.
  - unfold bind.
    destruct (nonBlank (inputOf w)) eqn:Hnb.
    + rewrite (checkTicketValidity_full e w Hnb).
      assert (Ht : toggleContractInfo w =
                   (inr tt,
                    mkWorld
                      (mkStore (walletAddress (store w))
                               (isValidTicket (store w))
                               (isLoading (store w))
                               (nftDetails (store w))
                               (negb (showContractInfo (store w)))
                               (errorInfo (store w)))
                      (calls w) (console w))) by reflexivity.
      rewrite Ht.
      rewrite checkTicketValidity_full by exact Hnb.
      reflexivity.
    + rewrite (checkTicketValidity_blank e w Hnb).
      assert (Ht : fst (toggleContractInfo w) = inr tt) by reflexivity.
      destruct (toggleContractInfo w) as [[err | []] w'] eqn:Htog;
        [discriminate Ht |].
      apply checkTicketValidity_blank.
      apply (f_equal snd) in Htog. cbn in Htog. now subst w'.
  - reflexivity.
  - destruct w as [[input valid loading nft shown err] cs con].
    cbn. now rewrite negb_involutive.
Qed.

(** X15. A click on the validate button does nothing while a validation is
    loading, and otherwise does exactly what the handler does: on a blank
    input the [disabled] attribute and the guard of the handler agree. *)
Theorem click_guard_matches_handler (e : Env) (w : World) :
  clickValidate e w =
    if isLoading (store w) then (inr tt, w) else checkTicketValidity e w.
Proof.
  unfold clickValidate, bind, readStore, validateDisabled.
  cbn [fst snd].
  destruct (isLoading (store w)).
  - rewrite orb_true_r. reflexivity.
  - rewrite orb_false_r.
    destruct (truthy (trim (walletAddress (store w)))) eqn:Hnb; cbn.
    + reflexivity.
    + symmetry. now apply checkTicketValidity_blank.
Qed.
